(** * Stateful-Action-Tracker: the reconciliation core, embedded and verified

    The development follows the Python sources:
    - [src/data_structures.py]   ([create_action_item], [update_action_item]),
    - [src/action_item_parser.py] ([parse_llm_json_response],
      [process_parsed_items]),
    - [src/memory_manager.py]    ([get_project_file_path],
      [load_action_items], [save_action_items]).

    Python values decoded from JSON are a tagged union, dictionaries are
    insertion-ordered association lists, exceptions are an error monad, the
    clock and the uuid generator are read through explicit state, and the
    file system is a finite map from paths to file contents.  The json
    library, as the store and the parser call it, is modelled on these
    values and proved to read back what it writes.  The [print] calls of the
    sources have no effect on results and are left out, except where
    evaluating the message can raise. *)

From Stdlib Require Import ZArith Ascii Lia DecimalString DecimalPos.
From stdpp Require Import gmap strings list.

Set Warnings "-register-all".
Local Open Scope nat_scope.

(** ** Python values *)

Module Py.

(** The values [json.loads] can produce.  Numbers are the integers:
    floating-point numbers are outside the model.  A [str] is represented by
    its UTF-8 encoding. *)
Inductive value : Type :=
| VNone
| VBool (b : bool)
| VInt (n : Z)
| VStr (s : string)
| VList (l : list value)
| VDict (d : list (string * value)).

(** A [dict] with [str] keys, in insertion order. *)
Abbreviation dict := (list (string * value)).

(** Exceptions the modelled code can meet. *)
Inductive exn : Type :=
| KeyError
| TypeError
| AttributeError
| JSONDecodeError
| UnicodeDecodeError
| IOError.

Inductive result (A : Type) : Type :=
| Ok (a : A)
| Raise (e : exn).
Arguments Ok {A} a.
Arguments Raise {A} e.

Definition bind {A B : Type} (r : result A) (k : A -> result B) : result B :=
  match r with
  | Ok a => k a
  | Raise e => Raise e
  end.

(** *** Dictionaries *)

Section Assoc.
Context {A : Type}.

(** [d.get(k)] / [d[k]] *)
Fixpoint dict_get (k : string) (d : list (string * A)) : option A :=
  match d with
  | [] => None
  | (k', v) :: d' => if String.eqb k k' then Some v else dict_get k d'
  end.

(** [k in d] *)
Definition dict_mem (k : string) (d : list (string * A)) : bool :=
  match dict_get k d with Some _ => true | None => false end.

(** [d[k] = v]: an existing key keeps its position, a new one goes last. *)
Fixpoint dict_set (k : string) (v : A) (d : list (string * A)) : list (string * A) :=
  match d with
  | [] => [(k, v)]
  | (k', v') :: d' =>
      if String.eqb k k' then (k', v) :: d' else (k', v') :: dict_set k v d'
  end.

Definition keys (d : list (string * A)) : list string := map fst d.
End Assoc.

(** *** Equality, truth value, hashability *)

(** [bool] is a subclass of [int]: [True == 1]. *)
Definition as_int (v : value) : option Z :=
  match v with
  | VBool b => Some (if b then 1%Z else 0%Z)
  | VInt n => Some n
  | _ => None
  end.

(** [a == b].  Lists compare element-wise, dictionaries by key set and values
    regardless of order. *)
Fixpoint py_eq (a b : value) {struct a} : bool :=
  match a, b with
  | VNone, VNone => true
  | VStr s, VStr t => String.eqb s t
  | VList l, VList m =>
      (fix go (l m : list value) {struct l} : bool :=
         match l, m with
         | [], [] => true
         | x :: l', y :: m' => py_eq x y && go l' m'
         | _, _ => false
         end) l m
  | VDict d, VDict e =>
      Nat.eqb (length d) (length e) &&
      (fix go (d : dict) {struct d} : bool :=
         match d with
         | [] => true
         | (k, v) :: d' =>
             match dict_get k e with
             | Some w => py_eq v w
             | None => false
             end && go d'
         end) d
  | _, _ =>
      match as_int a, as_int b with
      | Some x, Some y => Z.eqb x y
      | _, _ => false
      end
  end.

(** [bool(v)] *)
Definition truthy (v : value) : bool :=
  match v with
  | VNone => false
  | VBool b => b
  | VInt n => negb (Z.eqb n 0)
  | VStr s => negb (String.eqb s EmptyString)
  | VList l => match l with [] => false | _ => true end
  | VDict d => match d with [] => false | _ => true end
  end.

(** Lists and dictionaries cannot be dictionary keys. *)
Definition hashable (v : value) : bool :=
  match v with
  | VList _ | VDict _ => false
  | _ => true
  end.

(** [v[:50]] succeeds on strings and lists only. *)
Definition sliceable (v : value) : bool :=
  match v with
  | VStr _ | VList _ => true
  | _ => false
  end.

(** *** Strings *)

(** If [s] starts with [p], what follows [p]. *)
Fixpoint strip_prefix (p s : string) : option string :=
  match p, s with
  | EmptyString, _ => Some s
  | String a p', String b s' =>
      if Ascii.eqb a b then strip_prefix p' s' else None
  | String _ _, EmptyString => None
  end.

(** [s.startswith(p)] *)
Definition startswith (p s : string) : bool :=
  match strip_prefix p s with Some _ => true | None => false end.

(** [s.partition(sep)] when [sep] occurs: the text before its first
    occurrence and the text after it. *)
Fixpoint cut (sep s : string) : option (string * string) :=
  match strip_prefix sep s with
  | Some rest => Some (EmptyString, rest)
  | None =>
      match s with
      | EmptyString => None
      | String c s' =>
          match cut sep s' with
          | Some (a, b) => Some (String c a, b)
          | None => None
          end
      end
  end.

Fixpoint split_fuel (fuel : nat) (sep s : string) : list string :=
  match fuel with
  | 0 => [s]
  | S fuel' =>
      match cut sep s with
      | Some (a, b) => a :: split_fuel fuel' sep b
      | None => [s]
      end
  end.

(** [s.split(sep)] for a non-empty [sep]. *)
Definition split (sep s : string) : list string :=
  split_fuel (String.length s) sep s.

(** [sep.join(l)] *)
Fixpoint join (sep : string) (l : list string) : string :=
  match l with
  | [] => EmptyString
  | [s] => s
  | s :: l' => s +:+ sep +:+ join sep l'
  end.

(** [s.find(c)] for a one-character needle. *)
Fixpoint find (c : ascii) (s : string) : option nat :=
  match s with
  | EmptyString => None
  | String a s' =>
      if Ascii.eqb a c then Some 0
      else match find c s' with Some i => Some (S i) | None => None end
  end.

(** [s.rfind(c)] *)
Fixpoint rfind (c : ascii) (s : string) : option nat :=
  match s with
  | EmptyString => None
  | String a s' =>
      match rfind c s' with
      | Some i => Some (S i)
      | None => if Ascii.eqb a c then Some 0 else None
      end
  end.

(** [s[i:j]] for [0 <= i <= j]. *)
Definition slice (i j : nat) (s : string) : string :=
  String.substring i (j - i) s.

(** *** Text files *)

Definition code (c : ascii) : nat := nat_of_ascii c.

Definition between (lo hi : nat) (c : ascii) : bool :=
  (lo <=? code c) && (code c <=? hi).

(** Whether a byte sequence is well-formed UTF-8 (what the strict [utf-8]
    codec accepts). *)
Fixpoint utf8_valid (s : string) : bool :=
  match s with
  | EmptyString => true
  | String b0 s1 =>
      if code b0 <? 128 then utf8_valid s1
      else
        match s1 with
        | EmptyString => false
        | String b1 s2 =>
            if between 194 223 b0 then between 128 191 b1 && utf8_valid s2
            else
              match s2 with
              | EmptyString => false
              | String b2 s3 =>
                  if between 224 239 b0 then
                    between (if code b0 =? 224 then 160 else 128)
                            (if code b0 =? 237 then 159 else 191) b1
                    && between 128 191 b2 && utf8_valid s3
                  else
                    match s3 with
                    | EmptyString => false
                    | String b3 s4 =>
                        between 240 244 b0
                        && between (if code b0 =? 240 then 144 else 128)
                                   (if code b0 =? 244 then 143 else 191) b1
                        && between 128 191 b2 && between 128 191 b3
                        && utf8_valid s4
                    end
              end
        end
  end.

(** Reading in text mode turns the line endings CR LF and CR into LF. *)
Fixpoint universal_newlines (s : string) : string :=
  match s with
  | EmptyString => EmptyString
  | String "013" (String "010" s') => String "010" (universal_newlines s')
  | String "013" s' => String "010" (universal_newlines s')
  | String c s' => String c (universal_newlines s')
  end.

(** [open(path, 'r', encoding='utf-8').read()] on a file with these bytes. *)
Definition read_text (bytes : string) : result string :=
  if utf8_valid bytes then Ok (universal_newlines bytes)
  else Raise UnicodeDecodeError.

End Py.

(** ** The runtime the code runs on *)

Module Rt.
Import Py.

(** What the code obtains from the Python runtime and its libraries. *)
Record runtime : Type := {
  (** [repr(v)], used by f-strings for values that are not [str] *)
  py_repr : value -> string;
  (** [json.loads(text)] *)
  json_loads : string -> result value;
  (** [json.dumps(v, indent=2, ensure_ascii=False)] *)
  json_dumps : value -> string;
  (** [datetime.utcnow().isoformat()] at the k-th reading of the clock *)
  utcnow_isoformat : nat -> string;
  (** [str(uuid.uuid4())] at the k-th draw *)
  uuid4 : nat -> string;
  (** [config.ACTION_ITEM_DIR] *)
  ACTION_ITEM_DIR : string;
  (** [c.isalnum()] for a character [c] outside ASCII, given by its UTF-8
      encoding: the answer of the Unicode database *)
  unicode_isalnum : string -> bool
}.

(** How often the clock was read and the generator drawn from. *)
Record entropy : Type := { clock_reads : nat; uuid_draws : nat }.

Definition tick_clock (e : entropy) : entropy :=
  {| clock_reads := S (clock_reads e); uuid_draws := uuid_draws e |}.

Definition tick_uuid (e : entropy) : entropy :=
  {| clock_reads := clock_reads e; uuid_draws := S (uuid_draws e) |}.

(** [f"{v}"]: [str(v)], which is [v] itself for a [str]. *)
Definition fmt (rt : runtime) (v : value) : string :=
  match v with
  | VStr s => s
  | _ => py_repr rt v
  end.

(** [datetime.utcnow().isoformat() + "Z"] *)
Definition now (rt : runtime) (e : entropy) : string :=
  utcnow_isoformat rt (clock_reads e) +:+ "Z".

End Rt.

(** ** src/data_structures.py *)

Module DataStructures.
Import Py Rt.

Definition valid_statuses : list string :=
  ["Open"; "In Progress"; "Completed"; "Cancelled"].

(** [v in ["Open", "In Progress", "Completed", "Cancelled"]] *)
Definition is_valid_status (v : value) : bool :=
  existsb (fun s => py_eq v (VStr s)) valid_statuses.

Definition create_action_item (rt : runtime)
    (project_id : string) (task owner deadline status source_meeting : value)
    (e : entropy) : dict * entropy :=
  let now := now rt e in
  let e := tick_clock e in
  let id := uuid4 rt (uuid_draws e) in
  let e := tick_uuid e in
  ([ ("id", VStr id);
     ("project_id", VStr project_id);
     ("task", task);
     ("owner", owner);
     ("deadline", deadline);
     ("status", status);
     ("created_at", VStr now);
     ("updated_at", VStr now);
     ("source_meeting", source_meeting);
     ("update_history", VList []) ], e).

(** The two characters the source writes before and after each quoted part of
    a change description: a tab and an apostrophe. *)
Definition tick : string := String "009"%char "'".

Definition describe_changed (key old new : string) : string :=
  "Changed " +:+ tick +:+ key +:+ tick +:+ " from " +:+ tick +:+ old +:+ tick
  +:+ " to " +:+ tick +:+ new +:+ tick.

Definition describe_added (key new : string) : string :=
  "Added " +:+ tick +:+ key +:+ tick +:+ " with value " +:+ tick +:+ new +:+ tick.

(** One round of [for key, value in updates.items()]. *)
Definition apply_field (rt : runtime) (st : dict * list string)
    (kv : string * value) : dict * list string :=
  let '(item, change_log) := st in
  let '(key, v) := kv in
  match dict_get key item with
  | Some old =>
      if py_eq old v then (item, change_log)
      else (dict_set key v item,
            change_log ++ [describe_changed key (fmt rt old) (fmt rt v)])
  | None =>
      (dict_set key v item, change_log ++ [describe_added key (fmt rt v)])
  end.

Definition apply_fields (rt : runtime) (item : dict) (updates : dict)
    : dict * list string :=
  fold_left (apply_field rt) updates (item, []).

(** [if change_log: ...]: stamp the item and append one history entry. *)
Definition record_history (now : string) (change_log : list string)
    (item : dict) : dict :=
  match change_log with
  | [] => item
  | _ =>
      let item := dict_set "updated_at" (VStr now) item in
      let history_entry :=
        [("timestamp", VStr now); ("changes", VStr (join "; " change_log))] in
      let history :=
        match dict_get "update_history" item with
        | Some (VList h) => h
        | _ => []
        end in
      dict_set "update_history" (VList (history ++ [VDict history_entry])) item
  end.

(** [for change in reversed(change_log): ...] of the status check; the
    argument is the reversed log. *)
Fixpoint original_status (reversed_log : list string) (default : value) : value :=
  match reversed_log with
  | [] => default
  | change :: rest =>
      if startswith ("Changed " +:+ tick +:+ "status" +:+ tick) change then
        match split (" from " +:+ tick) change with
        | _ :: part1 :: _ => VStr (hd EmptyString (split (tick +:+ " to") part1))
        | _ => original_status rest default
        end
      else original_status rest default
  end.

(** [if "status" in updates and updates["status"] not in [...]: ...] *)
Definition check_status (updates : dict) (change_log : list string)
    (item : dict) : dict :=
  match dict_get "status" updates with
  | Some v =>
      if is_valid_status v then item
      else
        let current := default VNone (dict_get "status" item) in
        dict_set "status" (original_status (rev change_log) current) item
  | None => item
  end.

Definition update_action_item (rt : runtime) (item updates : dict)
    (e : entropy) : dict * entropy :=
  let now := now rt e in
  let e := tick_clock e in
  let '(item, change_log) := apply_fields rt item updates in
  let item := record_history now change_log item in
  let item := check_status updates change_log item in
  (item, e).

End DataStructures.

(** ** src/action_item_parser.py *)

Module ActionItemParser.
Import Py Rt DataStructures.

(** [try: ... except json.JSONDecodeError: return fallback] *)
Definition except_JSONDecodeError {A : Type} (r : result A) (fallback : A)
    : result A :=
  match r with
  | Raise JSONDecodeError => Ok fallback
  | _ => r
  end.

(** The branch taken when no [[ ... ]] slice is found: a single object. *)
Definition parse_single_object (rt : runtime) (response_content : string)
    : result (option (list value)) :=
  match find "{" response_content, rfind "}" response_content with
  | Some json_start_obj, Some json_end_obj =>
      if json_start_obj <? json_end_obj then
        let potential_json :=
          slice json_start_obj (json_end_obj + 1) response_content in
        except_JSONDecodeError
          (bind (json_loads rt potential_json) (fun parsed_obj =>
             match parsed_obj with
             | VDict _ => Ok (Some [parsed_obj])
             | _ => Ok None
             end))
          None
      else Ok None
  | _, _ => Ok None
  end.

(** The branch taken when a [[ ... ]] slice is found. *)
Definition parse_list (rt : runtime) (json_start json_end : nat)
    (response_content : string) : result (option (list value)) :=
  let potential_json_list := slice json_start (json_end + 1) response_content in
  except_JSONDecodeError
    (bind (json_loads rt potential_json_list) (fun parsed_data =>
       match parsed_data with
       | VList l => Ok (Some l)
       | _ => Ok None
       end))
    None.

Definition parse_llm_json_response (rt : runtime) (response_content : string)
    : result (option (list value)) :=
  if String.eqb response_content EmptyString then Ok None
  else
    match find "[" response_content, rfind "]" response_content with
    | Some json_start, Some json_end =>
        if json_end <? json_start then parse_single_object rt response_content
        else parse_list rt json_start json_end response_content
    | _, _ => parse_single_object rt response_content
    end.

(** [existing_items_map]: from an id to the position, in [existing_items], of
    the item object stored under it.  Keys are compared with [==]. *)
Abbreviation id_map := (list (value * nat)).

Fixpoint map_get (k : value) (m : id_map) : option nat :=
  match m with
  | [] => None
  | (k', i) :: m' => if py_eq k' k then Some i else map_get k m'
  end.

Fixpoint map_set (k : value) (i : nat) (m : id_map) : id_map :=
  match m with
  | [] => [(k, i)]
  | (k', j) :: m' =>
      if py_eq k' k then (k', i) :: m' else (k', j) :: map_set k i m'
  end.

(** [{item["id"]: item for item in existing_items}], from position [i] on. *)
Fixpoint build_map (items : list value) (i : nat) (m : id_map) : result id_map :=
  match items with
  | [] => Ok m
  | VDict item :: rest =>
      match dict_get "id" item with
      | None => Raise KeyError
      | Some id =>
          if hashable id then build_map rest (S i) (map_set id i m)
          else Raise TypeError
      end
  | _ :: _ => Raise TypeError
  end.

(** [item_id and item_id in existing_items_map], with the position found. *)
Definition lookup_existing (m : id_map) (item_id : value) : result (option nat) :=
  if truthy item_id then
    if hashable item_id then Ok (map_get item_id m) else Raise TypeError
  else Ok None.

Definition immutable_keys : list string :=
  ["id"; "project_id"; "created_at"; "update_history"].

(** [{k: v for k, v in llm_item.items() if k not in [...]}] *)
Definition field_updates (llm_item : dict) : dict :=
  List.filter (fun kv => negb (existsb (String.eqb (fst kv)) immutable_keys))
    llm_item.

(** The key the creation branch reads for its progress message: the word
    task followed by a tab. *)
Definition task_tab : string := "task" +:+ String "009"%char EmptyString.

(** What the loop of [process_parsed_items] carries: the existing items
    (updated in place), the items created so far, the clock and generator. *)
Record merge_state : Type := {
  existing_items : list value;
  newly_created_items : list dict;
  rng : entropy
}.

(** The body of [elif "task" in llm_item:]. *)
Definition create_from (rt : runtime) (project_id : string) (llm_item : dict)
    (st : merge_state) : result merge_state :=
  (* f"... {llm_item.get(<task_tab>)[:50]}..." *)
  if sliceable (default VNone (dict_get task_tab llm_item)) then
    match dict_get "task" llm_item with
    | None => Raise KeyError
    | Some task =>
        let '(new_item, e) :=
          create_action_item rt project_id task
            (default VNone (dict_get "owner" llm_item))
            (default VNone (dict_get "deadline" llm_item))
            (default (VStr "Open") (dict_get "status" llm_item))
            (VStr "LLM Extraction")
            (rng st) in
        let new_item :=
          match dict_get "status" llm_item with
          | Some status =>
              if is_valid_status status then new_item
              else dict_set "status" (VStr "Open") new_item
          | None => new_item
          end in
        Ok {| existing_items := existing_items st;
              newly_created_items := newly_created_items st ++ [new_item];
              rng := e |}
    end
  else Raise TypeError.

(** One round of [for llm_item in parsed_items]. *)
Definition process_item (rt : runtime) (project_id : string) (m : id_map)
    (st : merge_state) (llm_item : value) : result merge_state :=
  match llm_item with
  | VDict c =>
      bind (lookup_existing m (default VNone (dict_get "id" c))) (fun found =>
        match found with
        | Some i =>
            match existing_items st !! i with
            | Some (VDict existing_item) =>
                let '(item, e) :=
                  update_action_item rt existing_item (field_updates c) (rng st) in
                Ok {| existing_items := <[i := VDict item]> (existing_items st);
                      newly_created_items := newly_created_items st;
                      rng := e |}
            | _ => Raise KeyError (* the map holds positions of records only *)
            end
        | None =>
            if dict_mem "task" c then create_from rt project_id c st
            else Ok st
        end)
  | _ => Raise AttributeError
  end.

Fixpoint process_items (rt : runtime) (project_id : string) (m : id_map)
    (parsed_items : list value) (st : merge_state) : result merge_state :=
  match parsed_items with
  | [] => Ok st
  | llm_item :: rest =>
      bind (process_item rt project_id m st llm_item)
        (process_items rt project_id m rest)
  end.

Definition process_parsed_items (rt : runtime) (project_id : string)
    (parsed_items existing_items : list value) (e : entropy)
    : result (list value * entropy) :=
  bind (build_map existing_items 0 []) (fun existing_items_map =>
  bind (process_items rt project_id existing_items_map parsed_items
          {| existing_items := existing_items;
             newly_created_items := [];
             rng := e |}) (fun st =>
  Ok (ActionItemParser.existing_items st ++ map VDict (newly_created_items st),
      rng st))).

End ActionItemParser.

(** ** src/memory_manager.py *)

Module MemoryManager.
Import Py Rt.

(** The files of the storage directory, by path, with the paths that cannot
    be opened for reading or for writing and whether the directory can be
    made. *)
Record file_system : Type := {
  files : gmap string string;
  unreadable : gset string;
  unwritable : gset string;
  makedirs_fails : bool
}.

(** Whether a byte sequence begins with a continuation byte of UTF-8. *)
Definition continues (c : string) : bool :=
  match c with
  | String b _ => between 128 191 b
  | EmptyString => false
  end.

(** The characters of a [str], each by its UTF-8 encoding: a byte with the
    continuation bytes that follow it. *)
Fixpoint chars (s : string) : list string :=
  match s with
  | EmptyString => []
  | String b s' =>
      match chars s' with
      | c :: cs =>
          if continues c then String b c :: cs
          else String b EmptyString :: c :: cs
      | [] => [String b EmptyString]
      end
  end.

(** [c.isalnum()] for an ASCII character: a letter or a digit. *)
Definition ascii_isalnum (b : ascii) : bool :=
  between 48 57 b || between 65 90 b || between 97 122 b.

(** [c.isalnum()] for a character of a [str]. *)
Definition isalnum (rt : runtime) (c : string) : bool :=
  match c with
  | String b EmptyString =>
      if code b <? 128 then ascii_isalnum b else unicode_isalnum rt c
  | _ => unicode_isalnum rt c
  end.

(** [project_id] without the characters that are neither alphanumeric nor an
    underscore nor a hyphen: the [join] of the characters that are kept. *)
Definition safe_characters (rt : runtime) (project_id : string) : string :=
  join EmptyString
    (List.filter (fun c => isalnum rt c || String.eqb c "_" || String.eqb c "-")
       (chars project_id)).

Fixpoint endswith_char (c : ascii) (s : string) : bool :=
  match s with
  | EmptyString => false
  | String a EmptyString => Ascii.eqb a c
  | String _ s' => endswith_char c s'
  end.

(** [os.path.join(a, b)] on a POSIX system. *)
Definition path_join (a b : string) : string :=
  if startswith "/" b then b
  else if String.eqb a EmptyString || endswith_char "/" a then a +:+ b
  else a +:+ "/" +:+ b.

Definition get_project_file_path (rt : runtime) (project_id : string) : string :=
  let safe_project_id := safe_characters rt project_id in
  let safe_project_id :=
    if String.eqb safe_project_id EmptyString then "default_project"
    else safe_project_id in
  let filename := safe_project_id +:+ ".json" in
  path_join (ACTION_ITEM_DIR rt) filename.

(** [except json.JSONDecodeError ... except IOError ...] of the loader. *)
Definition except_decode_or_io {A : Type} (r : result A) (fallback : A)
    : result A :=
  match r with
  | Raise JSONDecodeError | Raise IOError => Ok fallback
  | _ => r
  end.

(** [json.load(f)] on the file at [file_path], opened for reading as UTF-8. *)
Definition json_load (rt : runtime) (fs : file_system) (file_path : string)
    (bytes : string) : result value :=
  if bool_decide (file_path ∈ unreadable fs) then Raise IOError
  else bind (read_text bytes) (json_loads rt).

Definition load_action_items (rt : runtime) (fs : file_system)
    (project_id : string) : result (list value) :=
  let file_path := get_project_file_path rt project_id in
  match files fs !! file_path with
  | None => Ok []
  | Some bytes =>
      except_decode_or_io
        (bind (json_load rt fs file_path bytes) (fun data =>
           match data with
           | VList l => Ok l
           | _ => Ok []
           end))
        []
  end.

(** Every value of the model serialises, so the [TypeError] handler of the
    source has no counterpart; a failing [open] leaves the file as it was. *)
Definition save_action_items (rt : runtime) (fs : file_system)
    (project_id : string) (action_items : list value) : file_system * bool :=
  let file_path := get_project_file_path rt project_id in
  if makedirs_fails fs then (fs, false)
  else if bool_decide (file_path ∈ unwritable fs) then (fs, false)
  else
    ({| files := <[file_path := json_dumps rt (VList action_items)]> (files fs);
        unreadable := unreadable fs;
        unwritable := unwritable fs;
        makedirs_fails := makedirs_fails fs |}, true).

End MemoryManager.

(** ** The json library

    [json.dumps(v, indent=2, ensure_ascii=False)] and [json.loads] on the
    values of the model.  Numbers are integers; the decoder knows no
    fractions and exponents, and no escapes of surrogates (a [str] with a
    lone surrogate has no UTF-8 encoding).  Outside that fragment it reports
    a decode error. *)

Module Json.
Import Py.

Definition dec_Z (n : Z) : string := NilZero.string_of_int (Z.to_int n).

Definition hex_digit (n : nat) : ascii :=
  ascii_of_nat (if n <? 10 then 48 + n else 87 + n).

Definition hex2 (c : ascii) : string :=
  String (hex_digit (code c / 16)) (String (hex_digit (code c mod 16)) EmptyString).

(** *** [json.dumps(v, indent=2, ensure_ascii=False)] *)

Fixpoint spaces (n : nat) : string :=
  match n with 0 => EmptyString | S n' => String " " (spaces n') end.

(** What the encoder writes for one byte of a string. *)
Definition dump_char (c : ascii) : string :=
  if Ascii.eqb c "034" then String "\" (String "034" EmptyString)
  else if Ascii.eqb c "\" then "\\"
  else if Ascii.eqb c "010" then "\n"
  else if Ascii.eqb c "013" then "\r"
  else if Ascii.eqb c "009" then "\t"
  else if Ascii.eqb c "008" then "\b"
  else if Ascii.eqb c "012" then "\f"
  else if code c <? 32 then "\u00" +:+ hex2 c
  else String c EmptyString.

Fixpoint dump_chars (s : string) : string :=
  match s with
  | EmptyString => EmptyString
  | String c s' => dump_char c +:+ dump_chars s'
  end.

Definition dump_str (s : string) : string :=
  String "034" (dump_chars s) +:+ String "034" EmptyString.

Definition newline : string := String "010" EmptyString.

Fixpoint dump (level : nat) (v : value) : string :=
  match v with
  | VNone => "null"
  | VBool b => if b then "true" else "false"
  | VInt n => dec_Z n
  | VStr s => dump_str s
  | VList [] => "[]"
  | VList l =>
      "[" +:+ newline +:+ spaces (2 * S level)
      +:+ join ("," +:+ newline +:+ spaces (2 * S level)) (map (dump (S level)) l)
      +:+ newline +:+ spaces (2 * level) +:+ "]"
  | VDict [] => "{}"
  | VDict d =>
      "{" +:+ newline +:+ spaces (2 * S level)
      +:+ join ("," +:+ newline +:+ spaces (2 * S level))
            (map (fun kv => dump_str (fst kv) +:+ ": " +:+ dump (S level) (snd kv)) d)
      +:+ newline +:+ spaces (2 * level) +:+ "}"
  end.

Definition dumps (v : value) : string := dump 0 v.

(** *** [json.loads] *)

Definition is_ws (c : ascii) : bool :=
  Ascii.eqb c " " || Ascii.eqb c "009" || Ascii.eqb c "010" || Ascii.eqb c "013".

Fixpoint skip_ws (s : string) : string :=
  match s with
  | String c s' => if is_ws c then skip_ws s' else s
  | EmptyString => s
  end.

Definition hex_value (c : ascii) : option N :=
  if between 48 57 c then Some (N.of_nat (code c - 48))
  else if between 97 102 c then Some (N.of_nat (code c - 87))
  else if between 65 70 c then Some (N.of_nat (code c - 55))
  else None.

(** The code point written with the four hexadecimal digits of a [\u]
    escape. *)
Definition hex4 (a b c d : ascii) : option N :=
  match hex_value a, hex_value b, hex_value c, hex_value d with
  | Some x, Some y, Some z, Some w => Some (((x * 16 + y) * 16 + z) * 16 + w)%N
  | _, _, _, _ => None
  end.

(** The UTF-8 encoding of a code point of the basic plane that is not a
    surrogate. *)
Definition utf8_encode (n : N) : option string :=
  if (n <? 128)%N then Some (String (ascii_of_N n) EmptyString)
  else if (n <? 2048)%N then
    Some (String (ascii_of_N (192 + n / 64))
            (String (ascii_of_N (128 + n mod 64)) EmptyString))
  else if ((55296 <=? n) && (n <=? 57343))%N then None
  else
    Some (String (ascii_of_N (224 + n / 4096))
            (String (ascii_of_N (128 + (n / 64) mod 64))
               (String (ascii_of_N (128 + n mod 64)) EmptyString))).

(** The characters of a string literal after its opening quote, and the text
    after its closing quote. *)
Fixpoint scan_string (s : string) : option (string * string) :=
  match s with
  | EmptyString => None
  | String "034" rest => Some (EmptyString, rest)
  | String "\" (String e s') =>
      if Ascii.eqb e "u" then
        match s' with
        | String a (String b (String c (String d s''))) =>
            match hex4 a b c d with
            | Some n =>
                match utf8_encode n, scan_string s'' with
                | Some enc, Some (str, rest) => Some (enc +:+ str, rest)
                | _, _ => None
                end
            | None => None
            end
        | _ => None
        end
      else
        let unescaped : option ascii :=
          if Ascii.eqb e "034" then Some "034"%char
          else if Ascii.eqb e "\" then Some "\"%char
          else if Ascii.eqb e "/" then Some "/"%char
          else if Ascii.eqb e "b" then Some "008"%char
          else if Ascii.eqb e "f" then Some "012"%char
          else if Ascii.eqb e "n" then Some "010"%char
          else if Ascii.eqb e "r" then Some "013"%char
          else if Ascii.eqb e "t" then Some "009"%char
          else None in
        match unescaped, scan_string s' with
        | Some c, Some (str, rest) => Some (String c str, rest)
        | _, _ => None
        end
  | String c s' =>
      if code c <? 32 then None
      else match scan_string s' with
           | Some (str, rest) => Some (String c str, rest)
           | None => None
           end
  end.

Definition is_digit (c : ascii) : bool := between 48 57 c.

Fixpoint scan_digits (acc : Z) (s : string) : Z * string :=
  match s with
  | String c s' =>
      if is_digit c then scan_digits (10 * acc + Z.of_nat (code c - 48))%Z s'
      else (acc, s)
  | EmptyString => (acc, s)
  end.

(** An integer literal; a fraction or an exponent is outside the fragment. *)
Definition scan_int (s : string) : option (Z * string) :=
  let '(negative, s) :=
    match s with String "-" s' => (true, s') | _ => (false, s) end in
  match s with
  | String c s' =>
      if is_digit c then
        let '(n, rest) :=
          if Ascii.eqb c "0" then (0%Z, s') else scan_digits 0%Z s in
        match rest with
        | String "." _ | String "e" _ | String "E" _ => None
        | _ => Some (if negative then (- n)%Z else n, rest)
        end
      else None
  | EmptyString => None
  end.

Fixpoint decode (fuel : nat) (s : string) : option (value * string) :=
  match fuel with
  | 0 => None
  | S fuel' =>
      match skip_ws s with
      | String "[" rest =>
          match skip_ws rest with
          | String "]" rest' => Some (VList [], rest')
          | _ => decode_items fuel' rest
          end
      | String "{" rest =>
          match skip_ws rest with
          | String "}" rest' => Some (VDict [], rest')
          | _ => decode_members fuel' [] rest
          end
      | String "034" rest =>
          match scan_string rest with
          | Some (str, rest') => Some (VStr str, rest')
          | None => None
          end
      | other =>
          match strip_prefix "null" other, strip_prefix "true" other,
                strip_prefix "false" other with
          | Some rest, _, _ => Some (VNone, rest)
          | _, Some rest, _ => Some (VBool true, rest)
          | _, _, Some rest => Some (VBool false, rest)
          | _, _, _ =>
              match scan_int other with
              | Some (n, rest) => Some (VInt n, rest)
              | None => None
              end
          end
      end
  end
with decode_items (fuel : nat) (s : string) : option (value * string) :=
  match fuel with
  | 0 => None
  | S fuel' =>
      match decode fuel' s with
      | Some (v, rest) =>
          match skip_ws rest with
          | String "]" rest' => Some (VList [v], rest')
          | String "," rest' =>
              match decode_items fuel' rest' with
              | Some (VList l, rest'') => Some (VList (v :: l), rest'')
              | _ => None
              end
          | _ => None
          end
      | None => None
      end
  end
with decode_members (fuel : nat) (acc : dict) (s : string) : option (value * string) :=
  match fuel with
  | 0 => None
  | S fuel' =>
      match skip_ws s with
      | String "034" rest =>
          match scan_string rest with
          | Some (key, rest) =>
              match skip_ws rest with
              | String ":" rest =>
                  match decode fuel' rest with
                  | Some (v, rest) =>
                      let acc := dict_set key v acc in
                      match skip_ws rest with
                      | String "}" rest' => Some (VDict acc, rest')
                      | String "," rest' => decode_members fuel' acc rest'
                      | _ => None
                      end
                  | None => None
                  end
              | _ => None
              end
          | None => None
          end
      | _ => None
      end
  end.

Definition loads (s : string) : result value :=
  match decode (S (String.length s)) s with
  | Some (v, rest) =>
      match skip_ws rest with
      | EmptyString => Ok v
      | _ => Raise JSONDecodeError
      end
  | None => Raise JSONDecodeError
  end.

End Json.

(** ** A concrete runtime for the worked examples

    The examples run on this runtime: the json library as modelled above,
    [repr] for ASCII text, the Latin-1 part of the Unicode database, a clock
    that advances by one microsecond per reading and a generator that
    counts.  No example leaves these fragments. *)

Module Demo.
Import Py Rt Json.

Definition dec (n : nat) : string := NilZero.string_of_uint (Nat.to_uint n).

Fixpoint zeros (n : nat) : string :=
  match n with 0 => EmptyString | S n' => String "0" (zeros n') end.

Definition pad (width n : nat) : string :=
  let d := dec n in zeros (width - String.length d) +:+ d.

(** *** [repr] *)

Fixpoint contains (c : ascii) (s : string) : bool :=
  match s with
  | EmptyString => false
  | String a s' => Ascii.eqb a c || contains c s'
  end.

Fixpoint repr_chars (quote : ascii) (s : string) : string :=
  match s with
  | EmptyString => EmptyString
  | String c s' =>
      (if Ascii.eqb c "\" then "\\"
       else if Ascii.eqb c quote then String "\" (String c EmptyString)
       else if Ascii.eqb c "010" then "\n"
       else if Ascii.eqb c "013" then "\r"
       else if Ascii.eqb c "009" then "\t"
       else if (code c <? 32) || (code c =? 127) then "\x" +:+ hex2 c
       else String c EmptyString) +:+ repr_chars quote s'
  end.

Definition repr_str (s : string) : string :=
  let quote : ascii :=
    if contains "'" s && negb (contains "034" s) then "034"%char else "'"%char in
  String quote (repr_chars quote s) +:+ String quote EmptyString.

Fixpoint repr (v : value) : string :=
  match v with
  | VNone => "None"
  | VBool b => if b then "True" else "False"
  | VInt n => dec_Z n
  | VStr s => repr_str s
  | VList l => "[" +:+ join ", " (map repr l) +:+ "]"
  | VDict d =>
      "{" +:+ join ", " (map (fun kv => repr_str (fst kv) +:+ ": " +:+ repr (snd kv)) d)
      +:+ "}"
  end.

(** *** [str.isalnum] outside ASCII

    The characters U+0080 to U+00FF: the letters, the superscript digits and
    the fractions among them. *)
Definition latin1_isalnum (c : string) : bool :=
  match c with
  | String b0 (String b1 EmptyString) =>
      if code b0 =? 194 then
        existsb (Nat.eqb (code b1)) [170; 178; 179; 181; 185; 186; 188; 189; 190]
      else if code b0 =? 195 then
        between 128 191 b1 && negb (code b1 =? 151) && negb (code b1 =? 183)
      else false
  | _ => false
  end.

Definition runtime : Rt.runtime := {|
  py_repr := repr;
  json_loads := loads;
  json_dumps := dumps;
  utcnow_isoformat := fun k => "2025-04-26T10:00:00." +:+ pad 6 k;
  uuid4 := fun k => "00000000-0000-4000-8000-" +:+ pad 12 k;
  ACTION_ITEM_DIR := "/home/ubuntu/action_tracker_agent/project_data";
  unicode_isalnum := latin1_isalnum
|}.

(** A JSON text written with apostrophes in place of double quotes. *)
Fixpoint json_text (s : string) : string :=
  match s with
  | EmptyString => EmptyString
  | String c s' => String (if Ascii.eqb c "'" then "034"%char else c) (json_text s')
  end.

Definition start : entropy := {| clock_reads := 0; uuid_draws := 0 |}.

End Demo.

(** ** Vocabulary of the statements *)

Module Spec.
Import Py Rt DataStructures ActionItemParser MemoryManager.

(** The update [kv] names a new key, or a value that is not [==] to the
    item's. *)
Definition differs (item : dict) (kv : string * value) : bool :=
  match dict_get (fst kv) item with
  | Some old => negb (py_eq old (snd kv))
  | None => true
  end.

(** The change description belonging to the update [kv], if it differs. *)
Definition description (rt : runtime) (item : dict) (kv : string * value)
    : option string :=
  match dict_get (fst kv) item with
  | Some old =>
      if py_eq old (snd kv) then None
      else Some (describe_changed (fst kv) (fmt rt old) (fmt rt (snd kv)))
  | None => Some (describe_added (fst kv) (fmt rt (snd kv)))
  end.

(** The entries of [item["update_history"]], none when it is not a list. *)
Definition history (item : dict) : list value :=
  match dict_get "update_history" item with
  | Some (VList h) => h
  | _ => []
  end.

Definition history_entry (now changes : string) : value :=
  VDict [("timestamp", VStr now); ("changes", VStr changes)].

(** No key occurs twice, as in every Python dictionary. *)
Fixpoint unique_keys (d : dict) : bool :=
  match d with
  | [] => true
  | (k, _) :: d' => negb (dict_mem k d') && unique_keys d'
  end.

(** The fields [update_action_item] maintains itself. *)
Definition bookkeeping (k : string) : bool :=
  String.eqb k "updated_at" || String.eqb k "update_history".

Definition without_bookkeeping (item : dict) : dict :=
  List.filter (fun kv => negb (bookkeeping (fst kv))) item.

(** The prefix by which the status check recognises, in the change log, the
    description of a status change. *)
Definition status_marker : string := "Changed " +:+ tick +:+ "status" +:+ tick.

(** Apart from [status] itself, no key begins with the word status followed
    by a tab and an apostrophe (no description of another field can be taken
    for that of the status). *)
Definition no_status_lookalike (updates : dict) : bool :=
  forallb (fun k => String.eqb k "status"
                    || negb (startswith ("status" +:+ tick) k))
          (keys updates).

Definition is_none {A : Type} (o : option A) : bool :=
  match o with None => true | Some _ => false end.

(** No occurrence of [sep] starts inside [q], whatever follows [q]. *)
Fixpoint clear (sep q : string) : bool :=
  match q with
  | EmptyString => true
  | String _ q' =>
      is_none (strip_prefix sep q) && is_none (strip_prefix q sep)
      && clear sep q'
  end.

(** A status text the two [split] calls of the status check read back from a
    change description as it was written. *)
Definition recoverable (old : string) : bool :=
  clear (" from " +:+ tick) (old +:+ tick +:+ " to")
  && clear (tick +:+ " to") old.

(** What a hashable value is as a dictionary key: [True] and [1] are one
    key. *)
Inductive key : Type :=
| KNone
| KNum (n : Z)
| KStr (s : string).

Definition key_of (v : value) : option key :=
  match v with
  | VNone => Some KNone
  | VBool b => Some (KNum (if b then 1%Z else 0%Z))
  | VInt n => Some (KNum n)
  | VStr s => Some (KStr s)
  | VList _ | VDict _ => None
  end.

(** [item["id"]] of a record of the store. *)
Definition id_of (item : value) : option value :=
  match item with
  | VDict d => dict_get "id" d
  | _ => None
  end.

(** [llm_item.get("id")] *)
Definition candidate_id (llm_item : dict) : value :=
  default VNone (dict_get "id" llm_item).

(** A record of the store that carries a hashable id. *)
Definition stored (item : value) : bool :=
  match item with
  | VDict d =>
      match dict_get "id" d with
      | Some id => hashable id
      | None => false
      end
  | _ => false
  end.

(** Some record of the store has an id [==] to [id]. *)
Definition has_id (existing : list value) (id : value) : bool :=
  existsb (fun item =>
             match id_of item with
             | Some k => py_eq k id
             | None => false
             end) existing.

(** A candidate record whose id is truthy and the id of a stored record:
    the guard [item_id and item_id in existing_items_map] lets it through. *)
Definition updating (existing : list value) (llm_item : value) : bool :=
  match llm_item with
  | VDict c =>
      match dict_get "id" c with
      | Some id => truthy id && has_id existing id
      | None => false
      end
  | _ => false
  end.

(** A candidate record whose id is the id of a stored record. *)
Definition matching (existing : list value) (llm_item : value) : bool :=
  match llm_item with
  | VDict c =>
      match dict_get "id" c with
      | Some id => has_id existing id
      | None => false
      end
  | _ => false
  end.


(** A candidate record that does not reach the creation branch: its id is
    absent, falsy or hashable, and it matches a stored record or has no
    [task] key. *)
Definition update_or_skip (existing : list value) (llm_item : value) : bool :=
  match llm_item with
  | VDict c =>
      (negb (truthy (candidate_id c)) || hashable (candidate_id c))
      && ((truthy (candidate_id c) && has_id existing (candidate_id c))
          || negb (dict_mem "task" c))
  | _ => false
  end.

(** What an in-place update keeps of a stored record: it stays a record with
    the same [id], [project_id] and [created_at], and its history is
    extended, never shortened or rewritten. *)
Definition preserved (before after : value) : Prop :=
  exists d d' : dict,
    before = VDict d /\ after = VDict d'
    /\ dict_get "id" d' = dict_get "id" d
    /\ dict_get "project_id" d' = dict_get "project_id" d
    /\ dict_get "created_at" d' = dict_get "created_at" d
    /\ history d `prefix_of` history d'.

(** The runtime reads back, as the value [v], the text it wrote for [v]. *)
Definition reads_back (rt : runtime) (v : value) : Prop :=
  bind (read_text (json_dumps rt v)) (json_loads rt) = Ok v.

(** The runtime encodes and decodes JSON as the json library does. *)
Definition json_library (rt : runtime) : Prop :=
  json_dumps rt = Json.dumps /\ json_loads rt = Json.loads.

(** What can follow a value in an encoded text: nothing, a comma or a line
    break. *)
Definition terminated (rest : string) : bool :=
  match rest with
  | EmptyString => true
  | String c _ => Ascii.eqb c "," || Ascii.eqb c "010"
  end.

(** The number written with the decimal digits [d] after digits that gave
    [acc]. *)
Fixpoint horner (acc : Z) (d : Decimal.uint) : Z :=
  match d with
  | Decimal.Nil => acc
  | Decimal.D0 d => horner (10 * acc + 0) d
  | Decimal.D1 d => horner (10 * acc + 1) d
  | Decimal.D2 d => horner (10 * acc + 2) d
  | Decimal.D3 d => horner (10 * acc + 3) d
  | Decimal.D4 d => horner (10 * acc + 4) d
  | Decimal.D5 d => horner (10 * acc + 5) d
  | Decimal.D6 d => horner (10 * acc + 6) d
  | Decimal.D7 d => horner (10 * acc + 7) d
  | Decimal.D8 d => horner (10 * acc + 8) d
  | Decimal.D9 d => horner (10 * acc + 9) d
  end%Z.

(** An ASCII character other than a carriage return. *)
Definition plain_char (c : ascii) : bool :=
  (code c <? 128) && negb (Ascii.eqb c "013").

(** A value of Python in this model: every [str] in it, keys included, is
    the UTF-8 encoding of a text, and no dictionary has a key twice. *)
Fixpoint python_value (v : value) : bool :=
  match v with
  | VStr s => utf8_valid s
  | VList l => forallb python_value l
  | VDict d =>
      unique_keys d
      && forallb (fun kv => utf8_valid (fst kv) && python_value (snd kv)) d
  | _ => true
  end.

(** The decoder reads [v] back from the text the encoder writes for it, at
    every nesting level and before every text that can follow a value, with
    fuel beyond the length of the text. *)
Definition decodes (v : value) : Prop :=
  forall level fuel rest,
    terminated rest = true ->
    String.length (Json.dump level v) < fuel ->
    Json.decode fuel (Json.dump level v +:+ rest) = Some (v, rest).


(** Every entry of the id map points at a stored record with that key. *)
Definition map_sound (m : id_map) (items : list value) : Prop :=
  forall k i, In (k, i) m ->
    hashable k = true
    /\ exists d id, items !! i = Some (VDict d)
                    /\ dict_get "id" d = Some id /\ key_of id = key_of k.

(** Every id of a stored record is a key of the id map. *)
Definition map_complete (m : id_map) (items : list value) : Prop :=
  forall item id, In item items -> id_of item = Some id ->
    exists k i, In (k, i) m /\ key_of k = key_of id.

(** A decoded value: no dictionary inside it has a key twice. *)
Fixpoint wf_value (v : value) : bool :=
  match v with
  | VList l => forallb wf_value l
  | VDict d => unique_keys d && forallb (fun kv => wf_value (snd kv)) d
  | _ => true
  end.

(** A mapping of field updates as a decoder produces it. *)
Definition wf_updates (updates : dict) : bool :=
  unique_keys updates && forallb (fun kv => wf_value (snd kv)) updates.

(** The mapping does not name the two fields the update maintains itself, and
    a status it names is one of the four valid ones. *)
Definition plain_updates (updates : dict) : bool :=
  negb (dict_mem "updated_at" updates)
  && negb (dict_mem "update_history" updates)
  && match dict_get "status" updates with
     | Some v => is_valid_status v
     | None => true
     end.

(** [c in s] for a one-character [c]. *)
Fixpoint occurs (c : ascii) (s : string) : bool :=
  match s with
  | EmptyString => false
  | String a s' => Ascii.eqb a c || occurs c s'
  end.

Fixpoint all_chars (f : ascii -> bool) (s : string) : bool :=
  match s with
  | EmptyString => true
  | String c s' => f c && all_chars f s'
  end.

(** The ASCII characters [get_project_file_path] lets through. *)
Definition safe_char (c : ascii) : bool :=
  ascii_isalnum c || Ascii.eqb c "_" || Ascii.eqb c "-".

Definition ascii_only (s : string) : bool :=
  all_chars (fun c => code c <? 128) s.

(** The storage directory as a prefix of the paths below it. *)
Definition directory_prefix (dir : string) : string :=
  if String.eqb dir EmptyString || endswith_char "/" dir then dir
  else dir +:+ "/".

(** Some candidate carries an id [==] to [id]. *)
Definition targeted (parsed_items : list value) (id : value) : bool :=
  existsb (fun llm_item =>
             match llm_item with
             | VDict c => py_eq id (candidate_id c)
             | _ => false
             end) parsed_items.

(** The candidate does not have the key the creation branch reads for its
    progress message. *)
Definition without_task_tab (llm_item : value) : bool :=
  match llm_item with
  | VDict c => negb (dict_mem task_tab c)
  | _ => true
  end.

(** The candidate is a record (a JSON object). *)
Definition is_record (llm_item : value) : bool :=
  match llm_item with
  | VDict _ => true
  | _ => false
  end.

(** What every item made by the creation branch looks like. *)
Definition created_shape (rt : runtime) (project_id : string) (item : dict)
    : Prop :=
  (exists k, dict_get "id" item = Some (VStr (uuid4 rt k)))
  /\ dict_get "project_id" item = Some (VStr project_id)
  /\ (exists s, dict_get "status" item = Some s /\ is_valid_status s = true)
  /\ dict_get "created_at" item = dict_get "updated_at" item
  /\ dict_get "source_meeting" item = Some (VStr "LLM Extraction")
  /\ dict_get "update_history" item = Some (VList []).

End Spec.

(** ** Example data *)

Module Examples.
Import Py.

(** The stored item of the parser's own demonstration. *)
Definition docs_item : dict :=
  [ ("id", VStr "xyz-123");
    ("project_id", VStr "TestProc");
    ("task", VStr "Update docs");
    ("owner", VStr "Dave");
    ("status", VStr "In Progress");
    ("created_at", VStr "2025-04-20T11:00:00Z");
    ("updated_at", VStr "2025-04-25T15:30:00Z");
    ("update_history", VList []) ].

(** The first candidate of the parser's own demonstration. *)
Definition report_candidate : dict :=
  [ ("task", VStr "Finalize the report");
    ("owner", VStr "Alice");
    ("deadline", VStr "next Friday") ].

(** The mapping of the model's own demonstration of an invalid status, with
    a second field. *)
Definition done_and_owner : dict :=
  [ ("status", VStr "Done"); ("owner", VStr "Bob") ].

(** The second candidate of the parser's own demonstration. *)
Definition completed_candidate : dict :=
  [ ("id", VStr "xyz-123"); ("status", VStr "Completed") ].

(** A candidate with an id of its own that no stored record has. *)
Definition foreign_candidate : dict :=
  [ ("id", VStr "abc-999"); ("task", VStr "Write tests") ].

(** A reply with an undecodable bracket pair before a well-formed object. *)
Definition noisy_reply : string :=
  Demo.json_text "[oops] {'task': 'Fail'}".

(** A storage directory without files in which everything is permitted. *)
Definition empty_disk : MemoryManager.file_system :=
  {| MemoryManager.files := ∅;
     MemoryManager.unreadable := ∅;
     MemoryManager.unwritable := ∅;
     MemoryManager.makedirs_fails := false |}.

(** A storage directory whose only file, the document of [TestProc], holds
    the single byte 0xFF. *)
Definition corrupt_disk : MemoryManager.file_system :=
  {| MemoryManager.files :=
       {[ MemoryManager.get_project_file_path Demo.runtime "TestProc"
          := String "255" EmptyString ]};
     MemoryManager.unreadable := ∅;
     MemoryManager.unwritable := ∅;
     MemoryManager.makedirs_fails := false |}.

(** A mapping with a valid status and another field. *)
Definition progress_and_owner : dict :=
  [ ("status", VStr "Completed"); ("owner", VStr "Bob") ].

(** A candidate with the key the creation branch reads. *)
Definition tabbed_candidate : dict :=
  report_candidate ++ [(ActionItemParser.task_tab, VStr "Finalize")].

(** A second stored record. *)
Definition budget_item : dict :=
  [ ("id", VStr "abc-789");
    ("project_id", VStr "TestProc");
    ("task", VStr "Review budget proposal");
    ("owner", VStr "Alice");
    ("status", VStr "Open");
    ("created_at", VStr "2025-04-28T10:00:00Z");
    ("updated_at", VStr "2025-04-28T10:00:00Z");
    ("update_history", VList []) ].

(** A store of two records and a reply with an update and a new task. *)
Definition two_records : list value :=
  [VDict budget_item; VDict docs_item].

Definition update_and_new_task : list value :=
  [VDict completed_candidate; VDict tabbed_candidate].

(** A stored record numbered zero, as in a store whose ids are counted from
    zero, an update for it and a task with its number. *)
Definition numbered_item : dict :=
  [ ("id", VInt 0);
    ("project_id", VStr "TestProc");
    ("task", VStr "Update docs");
    ("owner", VStr "Dave");
    ("status", VStr "In Progress");
    ("created_at", VStr "2025-04-20T11:00:00Z");
    ("updated_at", VStr "2025-04-25T15:30:00Z");
    ("update_history", VList []) ].

Definition numbered_update : dict :=
  [ ("id", VInt 0); ("status", VStr "Completed") ].

Definition numbered_task : dict :=
  [ ("id", VInt 0); ("task", VStr "Update docs") ].

(** A field whose name begins like the quoted name of the status field in a
    change description, an item that has it, and a mapping that changes it
    after an invalid status. *)
Definition lookalike_key : string :=
  "status" +:+ DataStructures.tick +:+ " k".

Definition lookalike_item : dict :=
  [ ("id", VStr "xyz-123");
    ("status", VStr "Open");
    (lookalike_key, VStr "old") ].

Definition done_and_lookalike : dict :=
  [ ("status", VStr "Done"); (lookalike_key, VStr "new") ].

(** A project identifier with a letter outside ASCII (U+00E9, in UTF-8 the
    bytes 195 and 169) and one with a sign that is no letter (U+00D7, the
    bytes 195 and 151). *)
Definition cafe : string :=
  "caf" +:+ String "195" (String "169" EmptyString).

Definition cafe_times : string :=
  cafe +:+ String "195" (String "151" EmptyString).

(** The storage directory after the demonstration item was saved for
    [TestProc]. *)
Definition testproc_disk : MemoryManager.file_system :=
  fst (MemoryManager.save_action_items Demo.runtime empty_disk "TestProc"
         [VDict docs_item]).

End Examples.

(** * Properties *)

Import Py Rt DataStructures ActionItemParser MemoryManager Spec.

(** ** Dictionaries *)

Section DictFacts.
Context {A : Type}.
Implicit Types (d : list (string * A)) (k : string) (v : A).

Lemma dict_get_set_eq k v d : dict_get k (dict_set k v d) = Some v.
Proof.
  induction d as [|[k' v'] d IH]; simpl.
  - now rewrite String.eqb_refl.
  - destruct (String.eqb_spec k k') as [->|Hne]; simpl.
    + now rewrite String.eqb_refl.
    + destruct (String.eqb_spec k k'); [contradiction | exact IH].
Qed.

Lemma dict_get_set_ne k k' v d :
  k <> k' -> dict_get k (dict_set k' v d) = dict_get k d.
Proof.
  intros Hne. induction d as [|[k0 v0] d IH]; simpl.
  - destruct (String.eqb_spec k k'); [contradiction | reflexivity].
  - destruct (String.eqb_spec k' k0) as [->|Hne0]; simpl.
    + destruct (String.eqb_spec k k0); [contradiction | reflexivity].
    + destruct (String.eqb_spec k k0); [reflexivity | exact IH].
Qed.

Lemma dict_set_same k v d : dict_get k d = Some v -> dict_set k v d = d.
Proof.
  induction d as [|[k' v'] d IH]; simpl; [discriminate|].
  destruct (String.eqb_spec k k') as [->|Hne]; intros H.
  - now injection H as ->.
  - now rewrite IH.
Qed.

Lemma dict_mem_set k k' v d :
  dict_mem k (dict_set k' v d) = String.eqb k k' || dict_mem k d.
Proof.
  unfold dict_mem. destruct (String.eqb_spec k k') as [->|Hne].
  - now rewrite dict_get_set_eq.
  - now rewrite dict_get_set_ne.
Qed.

Lemma dict_get_In k v d : dict_get k d = Some v -> In (k, v) d.
Proof.
  induction d as [|[k' v'] d IH]; simpl; [discriminate|].
  destruct (String.eqb_spec k k') as [->|Hne]; intros H.
  - injection H as ->. now left.
  - right. now apply IH.
Qed.

Lemma dict_mem_In k v d : In (k, v) d -> dict_mem k d = true.
Proof.
  unfold dict_mem. induction d as [|[k' v'] d IH]; simpl; [tauto|].
  intros [H|H].
  - injection H as -> ->. now rewrite String.eqb_refl.
  - destruct (String.eqb k k'); [reflexivity | now apply IH].
Qed.
End DictFacts.

(** ** Strings *)

Section StringFacts.
Implicit Types (sep p q r s : string).

Lemma append_empty p : p +:+ EmptyString = p.
Proof.
  induction p as [|c p IH]; [reflexivity|].
  change (String c p +:+ EmptyString) with (String c (p +:+ EmptyString)).
  now rewrite IH.
Qed.

Lemma append_assoc p q r : (p +:+ q) +:+ r = p +:+ q +:+ r.
Proof.
  induction p as [|c p IH]; [reflexivity|].
  change (String c ((p +:+ q) +:+ r) = String c (p +:+ q +:+ r)).
  now rewrite IH.
Qed.

Lemma length_append p q :
  String.length (p +:+ q) = String.length p + String.length q.
Proof.
  induction p as [|c p IH]; [reflexivity|].
  change (S (String.length (p +:+ q)) = S (String.length p + String.length q)).
  now rewrite IH.
Qed.

(** A mismatch found inside [s] stays a mismatch when [s] is extended. *)
Lemma strip_prefix_app_none sep : forall s r,
  strip_prefix sep s = None -> strip_prefix s sep = None ->
  strip_prefix sep (s +:+ r) = None.
Proof.
  induction sep as [|a sep IH]; intros [|b s] r H1 H2; simpl in *;
    try discriminate.
  rewrite (Ascii.eqb_sym b a) in H2.
  destruct (Ascii.eqb a b); [now apply IH | reflexivity].
Qed.

Lemma strip_prefix_self sep r : strip_prefix sep (sep +:+ r) = Some r.
Proof.
  induction sep as [|a sep IH]; simpl; [reflexivity|].
  now rewrite Ascii.eqb_refl.
Qed.

Lemma cut_clear sep q r :
  clear sep q = true ->
  cut sep (q +:+ r)
  = match cut sep r with
    | Some (a, b) => Some (q +:+ a, b)
    | None => None
    end.
Proof.
  induction q as [|c q IH]; intros H.
  - change (EmptyString +:+ r) with r.
    destruct (cut sep r) as [[a b]|]; reflexivity.
  - cbn [clear] in H. apply andb_true_iff in H as [H H3].
    apply andb_true_iff in H as [H1 H2].
    change (String c q +:+ r) with (String c (q +:+ r)).
    cbn [cut].
    change (String c (q +:+ r)) with (String c q +:+ r).
    rewrite strip_prefix_app_none.
    + rewrite IH by exact H3. destruct (cut sep r) as [[a b]|]; reflexivity.
    + now destruct (strip_prefix sep (String c q)).
    + now destruct (strip_prefix (String c q) sep).
Qed.

Lemma cut_self sep r : cut sep (sep +:+ r) = Some (EmptyString, r).
Proof.
  destruct sep as [|a sep]; [now destruct r|].
  change (String a sep +:+ r) with (String a (sep +:+ r)). cbn [cut].
  change (String a (sep +:+ r)) with (String a sep +:+ r).
  now rewrite strip_prefix_self.
Qed.

Lemma cut_clear_sep sep p r :
  clear sep p = true -> cut sep (p +:+ sep +:+ r) = Some (p, r).
Proof.
  intros H. rewrite cut_clear, cut_self by exact H.
  now rewrite append_empty.
Qed.

(** The first piece of a split at a clear prefix is that prefix. *)
Lemma split_hd_clear sep p r :
  clear sep p = true -> sep <> EmptyString ->
  hd EmptyString (split sep (p +:+ sep +:+ r)) = p.
Proof.
  intros H Hsep. unfold split.
  destruct (String.length (p +:+ sep +:+ r)) as [|n] eqn:Hlen.
  - rewrite !length_append in Hlen. destruct sep; [contradiction|].
    simpl in Hlen. lia.
  - cbn [split_fuel]. now rewrite cut_clear_sep.
Qed.

(** A cut takes the separator out of the text. *)
Lemma cut_length sep : forall s a b,
  cut sep s = Some (a, b) ->
  String.length s = String.length a + String.length sep + String.length b.
Proof.
  assert (Hstrip : forall p s r, strip_prefix p s = Some r ->
            String.length s = String.length p + String.length r).
  { induction p as [|x p IH]; intros [|y s] r H; simpl in *;
      try discriminate; try (now injection H as <-).
    destruct (Ascii.eqb x y); [|discriminate]. now rewrite (IH s r H). }
  induction s as [|c s IH]; intros a b H; cbn [cut] in H.
  - destruct (strip_prefix sep EmptyString) as [r|] eqn:E; [|discriminate].
    injection H as <- <-. apply Hstrip in E. simpl in *. lia.
  - destruct (strip_prefix sep (String c s)) as [r|] eqn:E.
    + injection H as <- <-. apply Hstrip in E. simpl in *. lia.
    + destruct (cut sep s) as [[a' b']|] eqn:E'; [|discriminate].
      injection H as <- <-. simpl. rewrite (IH a' b' eq_refl). lia.
Qed.

(** The fuel of [split] is enough: more fuel gives the same pieces. *)
Lemma split_fuel_enough sep : sep <> EmptyString ->
  forall n s, String.length s <= n -> split_fuel n sep s = split sep s.
Proof.
  intros Hsep.
  assert (Hlen : 0 < String.length sep) by (destruct sep; [contradiction | simpl; lia]).
  assert (H : forall n m s, String.length s <= n -> String.length s <= m ->
                split_fuel n sep s = split_fuel m sep s).
  { induction n as [|n IH]; intros m s Hn Hm.
    - destruct s; [|simpl in Hn; lia].
      destruct m; [reflexivity|]. cbn [split_fuel].
      destruct (cut sep EmptyString) as [[a b]|] eqn:E; [|reflexivity].
      apply cut_length in E. simpl in E. lia.
    - destruct m as [|m].
      + destruct s; [|simpl in Hm; lia]. cbn [split_fuel].
        destruct (cut sep EmptyString) as [[a b]|] eqn:E; [|reflexivity].
        apply cut_length in E. simpl in E. lia.
      + cbn [split_fuel].
        destruct (cut sep s) as [[a b]|] eqn:E; [|reflexivity].
        apply cut_length in E. f_equal. apply IH; lia. }
  intros n s Hn. unfold split. apply H; [exact Hn | lia].
Qed.

End StringFacts.

(** ** The status check reads the change log *)

Section StatusCheck.

(** From the description of a status change the check reads the text of the
    status before the change, when that text is recoverable. *)
Lemma original_status_reads_old old new rest d :
  recoverable old = true ->
  original_status (describe_changed "status" old new :: rest) d = VStr old.
Proof.
  intros H. apply andb_true_iff in H as [H1 H2].
  cbn [original_status].
  assert (Hs : startswith status_marker (describe_changed "status" old new) = true)
    by reflexivity.
  unfold status_marker in Hs. rewrite Hs.
  assert (Hcut : cut (" from " +:+ tick) (describe_changed "status" old new)
           = Some (status_marker,
                   old +:+ tick +:+ " to" +:+ " " +:+ tick +:+ new +:+ tick)).
  { exact (cut_clear_sep (" from " +:+ tick) status_marker _ eq_refl). }
  unfold split at 1.
  assert (Hlen : exists n,
    String.length (describe_changed "status" old new) = S (S n))
    by (eexists; reflexivity).
  destruct Hlen as [n ->]. cbn [split_fuel]. rewrite Hcut.
  replace (old +:+ tick +:+ " to" +:+ " " +:+ tick +:+ new +:+ tick)
    with ((old +:+ tick +:+ " to") +:+ (" " +:+ tick +:+ new +:+ tick))
    by (now rewrite append_assoc).
  rewrite cut_clear by exact H1.
  assert (Hhd : forall y,
    hd EmptyString (split (tick +:+ " to") ((old +:+ tick +:+ " to") +:+ y))
    = old).
  { intros y. rewrite append_assoc. now apply split_hd_clear. }
  destruct (cut (" from " +:+ tick) (" " +:+ tick +:+ new +:+ tick))
    as [[a b]|]; now rewrite Hhd.
Qed.

Lemma valid_status_recoverable old :
  is_valid_status (VStr old) = true -> recoverable old = true.
Proof.
  unfold is_valid_status. simpl. rewrite !orb_true_iff.
  intros [H|[H|[H|[H|H]]]]; try discriminate;
    apply String.eqb_eq in H; subst; reflexivity.
Qed.

Ltac next_char k :=
  let c := fresh "c" in
  destruct k as [|c k];
  [ intros; first [reflexivity | congruence]
  | lazy beta iota fix delta [String.append strip_prefix startswith tick];
    match goal with
    | |- context [Ascii.eqb ?x c] =>
        destruct (Ascii.eqb_spec x c); [subst c | intros; reflexivity]
    end ].

(** The description of a change to another field does not carry the
    marker, unless the field's name imitates it. *)
Lemma other_key_not_marked k a b :
  k <> "status" -> startswith ("status" +:+ tick) k = false ->
  startswith status_marker (describe_changed k a b) = false.
Proof.
  unfold status_marker, describe_changed.
  do 8 (next_char k).
  intros _ H. discriminate H.
Qed.

Lemma added_not_marked k a : startswith status_marker (describe_added k a) = false.
Proof. reflexivity. Qed.

(** Scanning a log in two parts. *)
Lemma original_status_app l1 : forall l2 d,
  original_status (l1 ++ l2) d = original_status l1 (original_status l2 d).
Proof.
  induction l1 as [|c l1 IH]; intros l2 d; [reflexivity|].
  cbn [app original_status].
  destruct (startswith _ c); [|apply IH].
  destruct (split _ c) as [|? [|? ?]]; auto.
Qed.

Lemma original_status_unmarked l d :
  Forall (fun c => startswith status_marker c = false) l ->
  original_status l d = d.
Proof.
  induction 1 as [|c l Hc _ IH]; [reflexivity|].
  cbn [original_status]. unfold status_marker in Hc. now rewrite Hc.
Qed.

End StatusCheck.

(** ** update_action_item *)

Section Update.
Variable rt : runtime.
Implicit Types (item updates : dict) (log : list string).

Lemma apply_field_description item log kv :
  apply_field rt (item, log) kv
  = (if differs item kv then dict_set (fst kv) (snd kv) item else item,
     log ++ option_list (description rt item kv)).
Proof.
  destruct kv as [k v]. unfold apply_field, differs, description; simpl.
  destruct (dict_get k item) as [old|]; [|reflexivity].
  destruct (py_eq old v); simpl; [now rewrite app_nil_r | reflexivity].
Qed.

(** Updates that do not differ leave the item and the log as they are. *)
Lemma apply_fields_noop updates : forall item log,
  existsb (differs item) updates = false ->
  fold_left (apply_field rt) updates (item, log) = (item, log).
Proof.
  induction updates as [|kv updates IH]; intros item log H;
    cbn [fold_left existsb] in *.
  - reflexivity.
  - apply orb_false_iff in H as [Hd H].
    rewrite apply_field_description. unfold description, differs in *.
    destruct (dict_get (fst kv) item) as [old|]; [|discriminate].
    apply negb_false_iff in Hd. rewrite Hd. simpl. rewrite app_nil_r.
    now apply IH.
Qed.

(** The log only grows. *)
Lemma apply_fields_log_grows updates : forall item log,
  exists extra,
    snd (fold_left (apply_field rt) updates (item, log)) = log ++ extra.
Proof.
  induction updates as [|kv updates IH]; intros item log; cbn [fold_left].
  - exists []. simpl. now rewrite app_nil_r.
  - rewrite apply_field_description.
    destruct (IH (if differs item kv then dict_set (fst kv) (snd kv) item else item)
                 (log ++ option_list (description rt item kv))) as [extra ->].
    eexists. now rewrite <- app_assoc.
Qed.

(** One differing update is enough for a non-empty log. *)
Lemma apply_fields_log_nonempty updates : forall item log,
  existsb (differs item) updates = true ->
  snd (fold_left (apply_field rt) updates (item, log)) <> [].
Proof.
  induction updates as [|kv updates IH]; intros item log H;
    cbn [fold_left existsb] in *.
  - discriminate.
  - rewrite apply_field_description.
    destruct (differs item kv) eqn:Hd.
    + destruct (apply_fields_log_grows updates
                  (dict_set (fst kv) (snd kv) item)
                  (log ++ option_list (description rt item kv))) as [extra ->].
      unfold description, differs in *.
      destruct (dict_get (fst kv) item) as [old|].
      * apply negb_true_iff in Hd. rewrite Hd. simpl.
        intros E. apply app_eq_nil in E as [E _].
        apply app_eq_nil in E as [_ E]. discriminate.
      * simpl. intros E. apply app_eq_nil in E as [E _].
        apply app_eq_nil in E as [_ E]. discriminate.
    + simpl in H. unfold description, differs in *.
      destruct (dict_get (fst kv) item) as [old|]; [|discriminate].
      apply negb_false_iff in Hd. rewrite Hd. simpl. rewrite app_nil_r.
      now apply IH.
Qed.

Lemma record_history_get_other now log item k :
  bookkeeping k = false ->
  dict_get k (record_history now log item) = dict_get k item.
Proof.
  intros Hk. apply orb_false_iff in Hk as [H1 H2].
  apply String.eqb_neq in H1, H2.
  destruct log; simpl; [reflexivity|].
  rewrite dict_get_set_ne by assumption.
  now rewrite dict_get_set_ne by assumption.
Qed.

Lemma record_history_stamps now log item :
  log <> [] ->
  dict_get "updated_at" (record_history now log item) = Some (VStr now)
  /\ history (record_history now log item)
     = history item ++ [history_entry now (join "; " log)].
Proof.
  intros Hlog. destruct log as [|c log]; [contradiction|].
  unfold record_history, history. split.
  - rewrite dict_get_set_ne by discriminate. apply dict_get_set_eq.
  - rewrite dict_get_set_eq.
    now rewrite (dict_get_set_ne "update_history" "updated_at") by discriminate.
Qed.

Lemma check_status_get_other updates log item k :
  k <> "status" ->
  dict_get k (check_status updates log item) = dict_get k item.
Proof.
  intros Hk. unfold check_status.
  destruct (dict_get "status" updates) as [v|]; [|reflexivity].
  destruct (is_valid_status v); [reflexivity|].
  now apply dict_get_set_ne.
Qed.

Lemma check_status_history updates log item :
  history (check_status updates log item) = history item.
Proof.
  unfold history. now rewrite check_status_get_other by discriminate.
Qed.

(** When nothing was logged, an invalid status is written back unchanged. *)
Lemma check_status_noop updates item :
  existsb (differs item) updates = false ->
  check_status updates [] item = item.
Proof.
  intros H. unfold check_status.
  destruct (dict_get "status" updates) as [v|] eqn:Hv; [|reflexivity].
  destruct (is_valid_status v); [reflexivity|]. simpl.
  apply dict_get_In in Hv.
  assert (Hd : differs item ("status", v) = false).
  { destruct (differs item ("status", v)) eqn:E; [|reflexivity].
    rewrite <- H. symmetry. apply existsb_exists. eauto. }
  unfold differs in Hd. simpl in Hd.
  destruct (dict_get "status" item) as [old|] eqn:Hold; [|discriminate].
  simpl. now apply dict_set_same.
Qed.

Lemma apply_fields_get_other updates : forall item log k,
  dict_mem k updates = false ->
  dict_get k (fst (fold_left (apply_field rt) updates (item, log)))
  = dict_get k item.
Proof.
  induction updates as [|[k' v] updates IH]; intros item log k Hk;
    cbn [fold_left].
  - reflexivity.
  - unfold dict_mem in Hk. simpl in Hk.
    destruct (String.eqb_spec k k') as [Heq|Hne]; [discriminate|].
    rewrite apply_field_description, IH by exact Hk. simpl.
    destruct (differs item (k', v)); [|reflexivity].
    now apply dict_get_set_ne.
Qed.

(** C4, amended: [update_action_item] stamps [updated_at] and appends
    exactly one history entry as soon as one supplied value differs from the
    item's value before the call (or names a new key), also when the only
    such value is an invalid status that is put back afterwards; when no
    supplied value differs, the item is returned as it was. *)
Theorem update_stamps_iff_a_value_differs item updates e :
  let item' := fst (update_action_item rt item updates e) in
  let '(assigned, log) := apply_fields rt item updates in
  (existsb (differs item) updates = true ->
     dict_get "updated_at" item' = Some (VStr (now rt e))
     /\ history item'
        = history assigned ++ [history_entry (now rt e) (join "; " log)]
     /\ (dict_mem "update_history" updates = false ->
         history assigned = history item))
  /\ (existsb (differs item) updates = false -> item' = item).
Proof.
  unfold update_action_item.
  pose proof (apply_fields_log_nonempty updates item []) as Hne.
  pose proof (apply_fields_noop updates item []) as Hnoop.
  pose proof (apply_fields_get_other updates item [] "update_history") as Hh.
  fold (apply_fields rt item updates) in Hne, Hnoop, Hh.
  destruct (apply_fields rt item updates) as [assigned log]. simpl in *.
  split.
  - intros Hd. specialize (Hne Hd).
    destruct (record_history_stamps (now rt e) log assigned Hne) as [Hu Hs].
    rewrite check_status_get_other by discriminate.
    rewrite check_status_history. repeat split; try assumption.
    intros Hm. unfold history. now rewrite Hh.
  - intros Hd. specialize (Hnoop Hd). injection Hnoop as -> ->.
    simpl. now apply check_status_noop.
Qed.

Lemma description_ext item item' kv :
  dict_get (fst kv) item' = dict_get (fst kv) item ->
  description rt item' kv = description rt item kv.
Proof. unfold description. now intros ->. Qed.

Lemma dict_mem_cons_ne k k' (v : value) (d : dict) :
  k <> k' -> dict_mem k ((k', v) :: d) = dict_mem k d.
Proof.
  intros Hne. unfold dict_mem. simpl.
  now destruct (String.eqb_spec k k').
Qed.

(** With keys that occur once each, the log lists the descriptions of the
    differing updates, in the order of the updates. *)
Lemma apply_fields_log updates : forall item0 item log,
  unique_keys updates = true ->
  (forall k, dict_mem k updates = true -> dict_get k item = dict_get k item0) ->
  snd (fold_left (apply_field rt) updates (item, log))
  = log ++ omap (description rt item0) updates.
Proof.
  induction updates as [|[k v] updates IH]; intros item0 item log Hu Hget;
    cbn [fold_left].
  - simpl. now rewrite app_nil_r.
  - cbn [unique_keys] in Hu. apply andb_true_iff in Hu as [Hk Hu].
    apply negb_true_iff in Hk.
    rewrite apply_field_description.
    rewrite (IH item0); [|exact Hu|].
    2:{ intros k' Hk'. assert (k' <> k) by congruence.
        rewrite <- Hget by (now rewrite dict_mem_cons_ne).
        destruct (differs item (k, v)); [now apply dict_get_set_ne | reflexivity]. }
    rewrite (description_ext item0 item (k, v)).
    + cbn [omap list_omap]. fold (omap (description rt item0) updates).
      destruct (description rt item0 (k, v)); simpl;
        now rewrite <- app_assoc.
    + simpl. apply Hget. unfold dict_mem. simpl.
      now rewrite String.eqb_refl.
Qed.

(** With keys that occur once each, every update is in force after the loop:
    its value was assigned, or the item held an equal value already. *)
Lemma apply_fields_applied updates : forall item log k w,
  unique_keys updates = true -> In (k, w) updates ->
  exists w',
    dict_get k (fst (fold_left (apply_field rt) updates (item, log))) = Some w'
    /\ (w' = w \/ py_eq w' w = true).
Proof.
  induction updates as [|[k0 v0] updates IH]; intros item log k w Hu Hin;
    [destruct Hin|].
  cbn [unique_keys] in Hu. apply andb_true_iff in Hu as [Hk Hu].
  apply negb_true_iff in Hk. cbn [fold_left].
  rewrite apply_field_description.
  destruct Hin as [Heq|Hin]; [|now apply IH].
  injection Heq as -> ->.
  rewrite apply_fields_get_other by exact Hk. simpl.
  destruct (differs item (k, w)) eqn:Hd.
  - exists w. split; [apply dict_get_set_eq | now left].
  - unfold differs in Hd. simpl in Hd.
    destruct (dict_get k item) as [old|]; [|discriminate].
    exists old. split; [reflexivity|]. right. now apply negb_false_iff.
Qed.

Lemma unmarked_log item updates :
  dict_mem "status" updates = false ->
  no_status_lookalike updates = true ->
  Forall (fun c => startswith status_marker c = false)
         (omap (description rt item) updates).
Proof.
  induction updates as [|[k v] updates IH]; intros Hm Hl; [constructor|].
  unfold dict_mem in Hm. cbn [dict_get] in Hm.
  destruct (String.eqb_spec "status" k) as [Heq|Hne]; [discriminate|].
  fold (dict_mem "status" updates) in Hm.
  cbn [no_status_lookalike keys map forallb fst] in Hl.
  apply andb_true_iff in Hl as [Hk Hl].
  destruct (String.eqb_spec k "status") as [Heq|_]; [congruence|].
  cbn [orb] in Hk. apply negb_true_iff in Hk.
  cbn [omap list_omap]. fold (omap (description rt item) updates).
  specialize (IH Hm Hl).
  unfold description at 1. cbn [fst snd].
  destruct (dict_get k item) as [old|].
  - destruct (py_eq old v); [exact IH|].
    constructor; [|exact IH]. apply other_key_not_marked; congruence.
  - constructor; [|exact IH]. apply added_not_marked.
Qed.

(** The status check finds, in the log of a call that changed a recoverable
    status, the status the item had before the call. *)
Lemma original_status_of_log item v old updates : forall d,
  unique_keys updates = true ->
  no_status_lookalike updates = true ->
  dict_get "status" updates = Some v ->
  dict_get "status" item = Some (VStr old) ->
  py_eq (VStr old) v = false ->
  recoverable old = true ->
  original_status (rev (omap (description rt item) updates)) d = VStr old.
Proof.
  induction updates as [|[k w] updates IH]; intros d Hu Hl Hv Hold Hne Hrec;
    [discriminate|].
  cbn [unique_keys] in Hu. apply andb_true_iff in Hu as [Hk Hu].
  apply negb_true_iff in Hk.
  cbn [omap list_omap]. fold (omap (description rt item) updates).
  cbn [dict_get] in Hv. destruct (String.eqb_spec "status" k) as [<-|Hk'].
  - injection Hv as ->.
    unfold description at 1. cbn [fst snd fmt]. rewrite Hold, Hne. cbn [rev].
    rewrite original_status_app, original_status_reads_old by exact Hrec.
    apply original_status_unmarked, Forall_rev, unmarked_log; [exact Hk|].
    cbn [no_status_lookalike keys map forallb fst] in Hl.
    now apply andb_true_iff in Hl as [_ Hl].
  - assert (Hl' : no_status_lookalike updates = true).
    { cbn [no_status_lookalike keys map forallb fst] in Hl.
      now apply andb_true_iff in Hl as [_ Hl]. }
    destruct (description rt item (k, w)); cbn [rev];
      [rewrite original_status_app|]; now apply IH.
Qed.

Lemma py_eq_str s v : py_eq (VStr s) v = true -> v = VStr s.
Proof.
  destruct v; simpl; try discriminate.
  intros H. apply String.eqb_eq in H. now subst.
Qed.

Lemma is_valid_status_str s :
  is_valid_status (VStr s) = true -> In s valid_statuses.
Proof.
  unfold is_valid_status. intros H. apply existsb_exists in H as [t [Hin Ht]].
  simpl in Ht. apply String.eqb_eq in Ht. now subst.
Qed.

(** C1, amended: an update whose status is not one of the four valid values,
    on an item whose status is one of them, leaves the status as it was
    before the call, provided no other field named by the mapping begins
    with the word status followed by a tab and an apostrophe (the mapping
    names each field once).  Every other supplied field, [updated_at] and
    [update_history] apart, holds the supplied value after the call;
    [updated_at] is set; the history entry appended for the call joins the
    descriptions of all differing updates, that of the rejected status
    change among them. *)
Theorem invalid_status_reverted_but_logged item updates e v old :
  unique_keys updates = true ->
  no_status_lookalike updates = true ->
  dict_get "status" updates = Some v ->
  is_valid_status v = false ->
  dict_get "status" item = Some (VStr old) ->
  is_valid_status (VStr old) = true ->
  let item' := fst (update_action_item rt item updates e) in
  let log := omap (description rt item) updates in
  dict_get "status" item' = Some (VStr old)
  /\ dict_get "updated_at" item' = Some (VStr (now rt e))
  /\ (exists h,
        dict_get "update_history" item'
        = Some (VList (h ++ [history_entry (now rt e) (join "; " log)])))
  /\ In (describe_changed "status" old (fmt rt v)) log
  /\ (forall k w,
        In (k, w) updates -> k <> "status" -> bookkeeping k = false ->
        exists w', dict_get k item' = Some w' /\ (w' = w \/ py_eq w' w = true)).
Proof.
  intros Hu Hl Hv Hinv Hold Hvalid item' log.
  assert (Hne : py_eq (VStr old) v = false).
  { destruct (py_eq (VStr old) v) eqn:E; [|reflexivity].
    apply py_eq_str in E. subst v. congruence. }
  assert (Hdesc : description rt item ("status", v)
                  = Some (describe_changed "status" old (fmt rt v))).
  { unfold description. cbn [fst snd]. now rewrite Hold, Hne. }
  assert (Hin : In (describe_changed "status" old (fmt rt v)) log).
  { apply list_elem_of_In, list_elem_of_omap. exists ("status", v).
    split; [|exact Hdesc]. now apply list_elem_of_In, dict_get_In. }
  assert (Hlog : snd (apply_fields rt item updates) = log).
  { unfold apply_fields. now rewrite (apply_fields_log updates item item []). }
  pose proof (fun k w => apply_fields_applied updates item [] k w Hu) as Happ.
  fold (apply_fields rt item updates) in Happ.
  subst item'. unfold update_action_item.
  destruct (apply_fields rt item updates) as [assigned log'] eqn:Hfields.
  simpl in Hlog, Happ. subst log'. simpl.
  assert (Hnonempty : log <> []) by (intros E; rewrite E in Hin; destruct Hin).
  repeat split.
  - unfold check_status. rewrite Hv, Hinv.
    rewrite dict_get_set_eq. f_equal.
    apply (original_status_of_log item v); try assumption.
    now apply valid_status_recoverable.
  - rewrite check_status_get_other by discriminate.
    now apply record_history_stamps.
  - exists (history assigned).
    rewrite check_status_get_other by discriminate.
    destruct log as [|c log0]; [contradiction|].
    unfold record_history. rewrite dict_get_set_eq. unfold history.
    now rewrite (dict_get_set_ne "update_history" "updated_at") by discriminate.
  - exact Hin.
  - intros k w Hkw Hk Hb.
    destruct (Happ k w Hkw) as [w' [Hget Hw']].
    exists w'. split; [|exact Hw'].
    rewrite check_status_get_other by exact Hk.
    now rewrite record_history_get_other by exact Hb.
Qed.

End Update.

(** C4, as stated, fails: an invalid status is logged and stamped although,
    once it is put back, no field other than the two the function maintains
    differs from before the call. *)
Lemma update_stamps_without_lasting_change :
  let item := Examples.docs_item in
  let item' :=
    fst (update_action_item Demo.runtime item [("status", VStr "Done")] Demo.start) in
  without_bookkeeping item' = without_bookkeeping item
  /\ dict_get "updated_at" item = Some (VStr "2025-04-25T15:30:00Z")
  /\ dict_get "updated_at" item' = Some (VStr "2025-04-26T10:00:00.000000Z")
  /\ history item = []
  /\ length (history item') = 1.
Proof. vm_compute. repeat split; reflexivity. Qed.

(** C1, as stated, fails: the history entry appended for the call holds the
    description of the rejected status change. *)
Lemma invalid_status_is_logged :
  history (fst (update_action_item Demo.runtime Examples.docs_item
                  [("status", VStr "Done")] Demo.start))
  = [history_entry "2025-04-26T10:00:00.000000Z"
       (describe_changed "status" "In Progress" "Done")].
Proof. vm_compute. reflexivity. Qed.

(** The theorem on the stored item of the parser's demonstration. *)
Lemma invalid_status_reverted_but_logged_witness :
  dict_get "status"
    (fst (update_action_item Demo.runtime Examples.docs_item
            Examples.done_and_owner Demo.start))
  = Some (VStr "In Progress").
Proof.
  exact (proj1 (invalid_status_reverted_but_logged Demo.runtime
                  Examples.docs_item Examples.done_and_owner Demo.start
                  (VStr "Done") "In Progress"
                  eq_refl eq_refl eq_refl eq_refl eq_refl eq_refl)).
Defined.

(** Why the theorem excludes fields named like the quoted status: the status
    check takes the description of a change to such a field, when it is the
    last one in the log, for that of the status, and writes the old value of
    that field into the status. *)
Lemma lookalike_field_misleads_status_check :
  no_status_lookalike Examples.done_and_lookalike = false
  /\ dict_get "status"
       (fst (update_action_item Demo.runtime Examples.lookalike_item
               Examples.done_and_lookalike Demo.start))
     = Some (VStr "old").
Proof. split; vm_compute; reflexivity. Qed.

(** The status check restores the text of the old status, not the value: a
    null status comes back as the string None. *)
Lemma revert_of_null_status_writes_text :
  dict_get "status"
    (fst (update_action_item Demo.runtime
            [("id", VStr "xyz-123"); ("status", VNone)]
            [("status", VStr "Done")] Demo.start))
  = Some (VStr "None").
Proof. vm_compute. reflexivity. Qed.

(** ** Keys of the id map *)

Section Keys.

Lemma py_eq_key a b :
  hashable a || hashable b = true ->
  (py_eq a b = true <-> key_of a = key_of b).
Proof.
  destruct a as [|x|x|x|x|x], b as [|y|y|y|y|y]; try discriminate; intros _;
    simpl; split; intros H; try discriminate; try reflexivity.
  all: try (apply Z.eqb_eq in H; now rewrite H).
  all: try (injection H as H; apply Z.eqb_eq; now rewrite H).
  - apply String.eqb_eq in H. now subst.
  - injection H as ->. apply String.eqb_refl.
Qed.

Lemma key_of_hashable v : hashable v = true <-> key_of v <> None.
Proof. destruct v; simpl; split; congruence. Qed.

(** Equal keys are falsy together. *)
Lemma key_of_truthy a b :
  key_of a = key_of b -> key_of a <> None -> truthy a = truthy b.
Proof.
  destruct a as [|x|x|x|x|x], b as [|y|y|y|y|y]; simpl; intros H Hn;
    try discriminate; try congruence; injection H as H; subst;
      try reflexivity.
  - now destruct x, y.
  - now destruct x.
  - now destruct y.
Qed.

Lemma map_get_In v m i :
  map_get v m = Some i -> exists k, In (k, i) m /\ py_eq k v = true.
Proof.
  induction m as [|[k j] m IH]; simpl; [discriminate|].
  destruct (py_eq k v) eqn:E.
  - intros H. injection H as ->. exists k. auto.
  - intros H. destruct (IH H) as [k' [Hin Hk']]. exists k'. auto.
Qed.

Lemma map_get_None v m :
  map_get v m = None -> forall k i, In (k, i) m -> py_eq k v = false.
Proof.
  induction m as [|[k j] m IH]; simpl; [contradiction|].
  destruct (py_eq k v) eqn:E; [discriminate|].
  intros H k' i [Heq|Hin]; [now injection Heq as <- _ | eauto].
Qed.

Lemma map_set_In k i m k' i' :
  In (k', i') (map_set k i m) ->
  In (k', i') m
  \/ (i' = i /\ (k' = k \/ (py_eq k' k = true /\ exists j, In (k', j) m))).
Proof.
  induction m as [|[k0 j] m IH]; simpl.
  - intros [H|[]]. injection H as <- <-. auto.
  - destruct (py_eq k0 k) eqn:E; simpl.
    + intros [H|H]; [injection H as <- <-|]; eauto 7.
    + intros [H|H]; [auto|].
      destruct (IH H) as [?|[? [?|[? [j' ?]]]]]; eauto 8.
Qed.

Lemma map_set_keeps k i m k' j :
  In (k', j) m -> exists j', In (k', j') (map_set k i m).
Proof.
  induction m as [|[k0 j0] m IH]; simpl; [contradiction|].
  intros [H|H].
  - injection H as -> ->. destruct (py_eq k' k); eexists; left; reflexivity.
  - destruct (IH H) as [j' Hj']. destruct (py_eq k0 k); simpl; eauto.
Qed.

Lemma map_set_adds k i m :
  exists k', In (k', i) (map_set k i m) /\ (k' = k \/ py_eq k' k = true).
Proof.
  induction m as [|[k0 j0] m IH]; simpl.
  - exists k. auto.
  - destruct (py_eq k0 k) eqn:E; simpl.
    + exists k0. auto.
    + destruct IH as [k' [Hin Hk']]. exists k'. auto.
Qed.

End Keys.

(** ** The id map of process_parsed_items *)

Section IdMap.

(** On stored records the map is built without an exception, and it is sound
    and complete for them. *)
Lemma build_map_stored rest : forall pre m,
  forallb stored rest = true ->
  map_sound m (pre ++ rest) ->
  map_complete m pre ->
  exists m',
    build_map rest (length pre) m = Ok m'
    /\ map_sound m' (pre ++ rest) /\ map_complete m' (pre ++ rest).
Proof.
  induction rest as [|item rest IH]; intros pre m Hst Hs Hc.
  - exists m. rewrite app_nil_r in *. auto.
  - cbn [forallb] in Hst. apply andb_true_iff in Hst as [Hitem Hst].
    destruct item as [| | | | |d]; try discriminate. simpl in Hitem.
    destruct (dict_get "id" d) as [id|] eqn:Hid; [|discriminate].
    cbn [build_map]. rewrite Hid, Hitem.
    replace (S (length pre)) with (length (pre ++ [VDict d]))
      by (rewrite length_app; simpl; lia).
    replace (pre ++ VDict d :: rest) with ((pre ++ [VDict d]) ++ rest) in *
      by (now rewrite <- app_assoc).
    apply IH; [exact Hst | |].
    + intros k i Hin. apply map_set_In in Hin as [Hin|[-> Hk]]; [now apply Hs|].
      assert (Hlook : ((pre ++ [VDict d]) ++ rest) !! length pre = Some (VDict d)).
      { rewrite <- app_assoc. apply list_lookup_middle. reflexivity. }
      destruct Hk as [->|[Hk [j Hj]]].
      * split; [exact Hitem|]. exists d, id. auto.
      * destruct (Hs k j Hj) as [Hh _]. split; [exact Hh|].
        exists d, id. repeat split; try assumption.
        symmetry. apply py_eq_key; [now rewrite Hh | exact Hk].
    + intros item id' Hin Hid'. apply in_app_or in Hin as [Hin|[<-|[]]].
      * destruct (Hc item id' Hin Hid') as [k [i [Hk Hkey]]].
        destruct (map_set_keeps id (length pre) m k i Hk) as [j' Hj'].
        exists k, j'. auto.
      * simpl in Hid'. rewrite Hid in Hid'. injection Hid' as <-.
        destruct (map_set_adds id (length pre) m) as [k [Hin Hk]].
        exists k, (length pre). split; [exact Hin|].
        destruct Hk as [->|Hk]; [reflexivity|].
        apply py_eq_key; [now rewrite Hitem, orb_true_r | exact Hk].
Qed.

Lemma build_map_existing existing :
  forallb stored existing = true ->
  exists m,
    build_map existing 0 [] = Ok m
    /\ map_sound m existing /\ map_complete m existing.
Proof.
  intros H. apply (build_map_stored existing [] [] H).
  - intros k i [].
  - intros item id [].
Qed.

Lemma map_get_sound m items v i :
  map_sound m items -> map_get v m = Some i ->
  exists d id,
    items !! i = Some (VDict d) /\ dict_get "id" d = Some id
    /\ py_eq id v = true.
Proof.
  intros Hs Hget. apply map_get_In in Hget as [k [Hin Hk]].
  destruct (Hs k i Hin) as [Hh [d [id [Hl [Hid Hkey]]]]].
  exists d, id. repeat split; try assumption.
  assert (Hv : key_of k = key_of v) by (apply py_eq_key; [now rewrite Hh | exact Hk]).
  assert (Hidh : hashable id = true).
  { apply key_of_hashable. rewrite Hkey. now apply key_of_hashable. }
  apply py_eq_key; [now rewrite Hidh | congruence].
Qed.

(** [item_id in existing_items_map] holds exactly when a stored record has
    that id. *)
Lemma map_get_has_id m items v :
  map_sound m items -> map_complete m items -> hashable v = true ->
  has_id items v = match map_get v m with Some _ => true | None => false end.
Proof.
  intros Hs Hc Hv. destruct (map_get v m) as [i|] eqn:Hget.
  - destruct (map_get_sound m items v i Hs Hget) as [d [id [Hl [Hid Heq]]]].
    apply existsb_exists. exists (VDict d). split.
    + apply list_elem_of_In. eapply list_elem_of_lookup_2. exact Hl.
    + simpl. now rewrite Hid.
  - destruct (has_id items v) eqn:Hhas; [|reflexivity].
    apply existsb_exists in Hhas as [item [Hin Hitem]].
    destruct (id_of item) as [id|] eqn:Hid; [|discriminate].
    destruct (Hc item id Hin Hid) as [k [i [Hk Hkey]]].
    pose proof (map_get_None v m Hget k i Hk) as Hne.
    destruct (Hs k i Hk) as [Hh _].
    assert (py_eq k v = true); [|congruence].
    apply py_eq_key; [now rewrite Hh|].
    rewrite Hkey. apply py_eq_key; [now rewrite Hv, orb_true_r | exact Hitem].
Qed.

End IdMap.

(** ** process_parsed_items *)

Section Merge.
Variable rt : runtime.

Lemma preserved_refl d : preserved (VDict d) (VDict d).
Proof. exists d, d. repeat split; reflexivity. Qed.

Lemma preserved_trans a b c : preserved a b -> preserved b c -> preserved a c.
Proof.
  intros [d [d' (-> & -> & H1 & H2 & H3 & H4)]]
         [e [e' (He & -> & G1 & G2 & G3 & G4)]].
  injection He as <-. exists d, e'. repeat split; try congruence.
  now transitivity (history d').
Qed.

Lemma field_updates_immutable c k :
  In k immutable_keys -> dict_mem k (field_updates c) = false.
Proof.
  intros Hk. destruct (dict_mem k (field_updates c)) eqn:E; [|reflexivity].
  unfold dict_mem in E.
  destruct (dict_get k (field_updates c)) as [v|] eqn:Hget; [|discriminate].
  apply dict_get_In in Hget. unfold field_updates in Hget.
  apply filter_In in Hget as [_ Hget]. cbn [fst] in Hget.
  apply negb_true_iff in Hget.
  assert (existsb (String.eqb k) immutable_keys = true); [|congruence].
  apply existsb_exists. exists k. split; [exact Hk | apply String.eqb_refl].
Qed.

(** An update with the field mapping of a candidate keeps the identity of the
    record and extends its history. *)
Lemma update_preserved item c e :
  preserved (VDict item)
            (VDict (fst (update_action_item rt item (field_updates c) e))).
Proof.
  unfold update_action_item.
  pose proof (fun k H => apply_fields_get_other rt (field_updates c) item [] k
                           (field_updates_immutable c k H)) as Hget.
  fold (apply_fields rt item (field_updates c)) in Hget.
  destruct (apply_fields rt item (field_updates c)) as [assigned log].
  simpl in *. eexists _, _. split; [reflexivity|]. split; [reflexivity|].
  repeat split.
  1-3: rewrite check_status_get_other, record_history_get_other by
         (reflexivity || discriminate);
       apply Hget; simpl; tauto.
  rewrite check_status_history.
  assert (Hh : history assigned = history item).
  { unfold history. rewrite Hget by (simpl; tauto). reflexivity. }
  destruct log as [|c0 log].
  - simpl. now rewrite Hh.
  - destruct (record_history_stamps (now rt e) (c0 :: log) assigned) as [_ ->];
      [discriminate|].
    rewrite Hh. now apply prefix_app_r.
Qed.

(** A candidate that does not reach the creation branch is processed without
    an exception; the stored records keep their identity and nothing is
    created. *)
Lemma process_item_update_or_skip project_id m existing st c :
  map_sound m existing -> map_complete m existing ->
  Forall2 preserved existing (existing_items st) ->
  update_or_skip existing c = true ->
  exists st',
    process_item rt project_id m st c = Ok st'
    /\ Forall2 preserved existing (existing_items st')
    /\ newly_created_items st' = newly_created_items st.
Proof.
  intros Hs Hc Hpres Hc'. destruct c as [| | | | |c]; try discriminate.
  cbn [update_or_skip] in Hc'. unfold candidate_id in Hc'.
  cbn [process_item]. unfold lookup_existing.
  set (item_id := default VNone (dict_get "id" c)) in *.
  apply andb_true_iff in Hc' as [Hid Hbranch].
  destruct (truthy item_id) eqn:Htruthy; simpl in Hid, Hbranch.
  - rewrite Hid. cbn [bind].
    rewrite (map_get_has_id m existing item_id Hs Hc Hid) in Hbranch.
    destruct (map_get item_id m) as [i|] eqn:Hget.
    + destruct (map_get_sound m existing item_id i Hs Hget)
        as [d [id [Hl _]]].
      destruct (Forall2_lookup_l _ _ _ _ _ Hpres Hl) as [y [Hy Hpy]].
      destruct Hpy as [d0 [d' (Hd0 & -> & Hrest)]]. injection Hd0 as <-.
      rewrite Hy.
      pose proof (update_preserved d' c (rng st)) as Hup.
      destruct (update_action_item rt d' (field_updates c) (rng st))
        as [item e'] eqn:Hupd.
      eexists. split; [reflexivity|]. simpl. split; [|reflexivity].
      rewrite <- (list_insert_id existing i (VDict d)) by exact Hl.
      apply Forall2_insert; [exact Hpres|].
      eapply preserved_trans; [|exact Hup]. exists d, d'. auto.
    + simpl in Hbranch. apply negb_true_iff in Hbranch. rewrite Hbranch.
      exists st. auto.
  - cbn [bind]. apply negb_true_iff in Hbranch. rewrite Hbranch.
    exists st. auto.
Qed.

Lemma process_items_update_or_skip project_id m existing cs : forall st,
  map_sound m existing -> map_complete m existing ->
  Forall2 preserved existing (existing_items st) ->
  forallb (update_or_skip existing) cs = true ->
  exists st',
    process_items rt project_id m cs st = Ok st'
    /\ Forall2 preserved existing (existing_items st')
    /\ newly_created_items st' = newly_created_items st.
Proof.
  induction cs as [|c cs IH]; intros st Hs Hc Hpres Hcs.
  - exists st. auto.
  - cbn [forallb] in Hcs. apply andb_true_iff in Hcs as [Hc' Hcs].
    destruct (process_item_update_or_skip project_id m existing st c
                Hs Hc Hpres Hc') as [st1 (Hst1 & Hp1 & Hn1)].
    destruct (IH st1 Hs Hc Hp1 Hcs) as [st2 (Hst2 & Hp2 & Hn2)].
    exists st2. cbn [process_items]. rewrite Hst1. cbn [bind].
    repeat split; [exact Hst2 | exact Hp2 | congruence].
Qed.

Lemma stored_preserved existing :
  forallb stored existing = true -> Forall2 preserved existing existing.
Proof.
  induction existing as [|item existing IH]; intros H; [constructor|].
  cbn [forallb] in H. apply andb_true_iff in H as [Hitem H].
  constructor; [|now apply IH].
  destruct item; try discriminate. apply preserved_refl.
Qed.

(** Without a candidate for the creation branch the merge returns, and it
    returns the stored records, each with its identity. *)
Lemma merge_update_or_skip project_id cs existing e :
  forallb stored existing = true ->
  forallb (update_or_skip existing) cs = true ->
  exists out e',
    process_parsed_items rt project_id cs existing e = Ok (out, e')
    /\ Forall2 preserved existing out.
Proof.
  intros Hst Hcs. unfold process_parsed_items.
  destruct (build_map_existing existing Hst) as [m (-> & Hs & Hc)].
  cbn [bind].
  destruct (process_items_update_or_skip project_id m existing cs
              {| existing_items := existing; newly_created_items := [];
                 rng := e |} Hs Hc (stored_preserved existing Hst) Hcs)
    as [st' (-> & Hp & Hn)].
  cbn [bind]. simpl in Hn. rewrite Hn. simpl. rewrite app_nil_r.
  eexists _, _. split; [reflexivity | exact Hp].
Qed.



(** The id of a candidate that equals the id of a stored record is hashable,
    as that one is; when it is truthy too, the guard of the update branch
    lets the candidate through. *)
Lemma updating_update_or_skip existing c :
  forallb stored existing = true ->
  updating existing c = true -> update_or_skip existing c = true.
Proof.
  intros Hst Hm. destruct c as [| | | | |c]; try discriminate.
  cbn [updating update_or_skip] in *. unfold candidate_id.
  destruct (dict_get "id" c) as [id|]; [|discriminate]. simpl.
  apply andb_true_iff in Hm as [Ht Hm]. rewrite Ht, Hm. pose proof Hm as Hex.
  apply existsb_exists in Hex as [item [Hin Hitem]].
  rewrite forallb_forall in Hst. specialize (Hst item Hin).
  destruct item as [| | | | |d]; try discriminate. simpl in Hst, Hitem.
  destruct (dict_get "id" d) as [k|]; [|discriminate].
  assert (Hkey : key_of k = key_of id)
    by (apply py_eq_key; [now rewrite Hst | exact Hitem]).
  assert (Hn : key_of k <> None) by (now apply key_of_hashable).
  assert (Hidh : hashable id = true).
  { apply key_of_hashable. now rewrite <- Hkey. }
  rewrite Hidh. reflexivity.
Qed.

(** C5, amended: candidates whose id is truthy (not empty, zero, false or
    null) and is the id of a stored record are in-place updates, when every
    stored record carries a hashable id.  The merged list is as long as the
    stored one, and every record keeps its [id], [project_id] and
    [created_at] and the history entries it had. *)
Theorem merge_updates_in_place project_id cs existing e :
  forallb stored existing = true ->
  forallb (updating existing) cs = true ->
  exists out e',
    process_parsed_items rt project_id cs existing e = Ok (out, e')
    /\ length out = length existing
    /\ Forall2 preserved existing out.
Proof.
  intros Hst Hcs.
  assert (Hcs' : forallb (update_or_skip existing) cs = true).
  { apply forallb_forall. intros c Hin. rewrite forallb_forall in Hcs.
    apply updating_update_or_skip; auto. }
  destruct (merge_update_or_skip project_id cs existing e Hst Hcs')
    as [out [e' [Hrun Hp]]].
  exists out, e'. repeat split; try assumption.
  symmetry. eapply Forall2_length. exact Hp.
Qed.


End Merge.



(** The update of the parser's demonstration. *)
Lemma merge_updates_in_place_witness :
  exists out e',
    process_parsed_items Demo.runtime "TestProc"
      [VDict Examples.completed_candidate] [VDict Examples.docs_item] Demo.start
    = Ok (out, e')
    /\ length out = 1
    /\ Forall2 preserved [VDict Examples.docs_item] out.
Proof.
  apply (merge_updates_in_place Demo.runtime "TestProc"
           [VDict Examples.completed_candidate] [VDict Examples.docs_item]
           Demo.start); reflexivity.
Defined.

(** C5, as stated, fails for an id that is falsy: the guard of the update
    branch takes the candidate for one without an id.  An update for the
    stored record numbered zero is passed over, a task with that number
    enters the creation branch (where the call raises on reading the key of
    the progress message), and with that key there the output has a second
    item for the same number. *)
Lemma merge_takes_falsy_id_for_none :
  let existing := [VDict Examples.numbered_item] in
  matching existing (VDict Examples.numbered_update) = true
  /\ process_parsed_items Demo.runtime "TestProc"
       [VDict Examples.numbered_update] existing Demo.start
     = Ok (existing, Demo.start)
  /\ matching existing (VDict Examples.numbered_task) = true
  /\ process_parsed_items Demo.runtime "TestProc"
       [VDict Examples.numbered_task] existing Demo.start
     = Raise TypeError
  /\ exists item e,
       process_parsed_items Demo.runtime "TestProc"
         [VDict (Examples.numbered_task ++ [(task_tab, VStr "Update docs")])]
         existing Demo.start
       = Ok ([VDict Examples.numbered_item; VDict item], e)
       /\ dict_get "task" item = Some (VStr "Update docs").
Proof.
  repeat split; try reflexivity. eexists _, _. split; reflexivity.
Qed.



(** X14: a stored record without an [id] key, after records that have one,
    makes the merge raise [KeyError], whatever the candidates are. *)
Lemma merge_raises_without_id (rt : runtime) project_id cs pre d post e :
  forallb stored pre = true -> dict_get "id" d = None ->
  process_parsed_items rt project_id cs (pre ++ VDict d :: post) e
  = Raise KeyError.
Proof.
  intros Hpre Hd. unfold process_parsed_items.
  assert (H : forall i m, build_map (pre ++ VDict d :: post) i m = Raise KeyError).
  { clear cs e. induction pre as [|item pre IH]; intros i m.
    - simpl. now rewrite Hd.
    - cbn [forallb] in Hpre. apply andb_true_iff in Hpre as [Hitem Hpre].
      destruct item as [| | | | |d0]; try discriminate. simpl in Hitem.
      destruct (dict_get "id" d0) as [id|] eqn:Hid; [|discriminate].
      cbn [app build_map]. rewrite Hid, Hitem. now apply IH. }
  now rewrite H.
Qed.

(** C6: merging the first candidate of the parser's own demonstration into an
    empty store raises: the creation branch slices, for its progress message,
    the value under the key made of the word task and a tab, which the
    candidate does not have. *)
Theorem merge_of_new_task_raises (rt : runtime) (e : entropy) :
  process_parsed_items rt "TestProc" [VDict Examples.report_candidate] [] e
  = Raise TypeError.
Proof. reflexivity. Qed.

(** With that key present the creation branch makes the item C6 describes. *)
Lemma merge_of_new_task_with_tab_key :
  process_parsed_items Demo.runtime "TestProc"
    [VDict (Examples.report_candidate ++ [(task_tab, VStr "Finalize")])] []
    Demo.start
  = Ok ([VDict
           [ ("id", VStr "00000000-0000-4000-8000-000000000000");
             ("project_id", VStr "TestProc");
             ("task", VStr "Finalize the report");
             ("owner", VStr "Alice");
             ("deadline", VStr "next Friday");
             ("status", VStr "Open");
             ("created_at", VStr "2025-04-26T10:00:00.000000Z");
             ("updated_at", VStr "2025-04-26T10:00:00.000000Z");
             ("source_meeting", VStr "LLM Extraction");
             ("update_history", VList []) ]],
        {| clock_reads := 1; uuid_draws := 1 |}).
Proof. vm_compute. reflexivity. Qed.

(** C10: a candidate with a task and an id that no stored record has is
    not made into a new item: the merge raises in the creation branch, for
    the same reason as in C6. *)
Theorem merge_of_foreign_id_raises (rt : runtime) (e : entropy) :
  process_parsed_items rt "TestProc" [VDict Examples.foreign_candidate]
    [VDict Examples.docs_item] e
  = Raise TypeError.
Proof. reflexivity. Qed.

(** ** parse_llm_json_response *)

Section Parser.
Variable rt : runtime.

Lemma find_nonempty c s i : find c s = Some i -> String.eqb s EmptyString = false.
Proof. destruct s; [discriminate | reflexivity]. Qed.

(** When a bracket pair is found, in order, the reply is decoded as a list
    and the single-object branch is not taken. *)
Lemma parse_takes_list_branch s i j :
  find "[" s = Some i -> rfind "]" s = Some j -> i <= j ->
  parse_llm_json_response rt s = parse_list rt i j s.
Proof.
  intros Hi Hj Hle. unfold parse_llm_json_response.
  rewrite (find_nonempty _ _ _ Hi), Hi, Hj.
  destruct (Nat.ltb_spec j i); [lia | reflexivity].
Qed.

(** C3, amended: when the slice from the first opening bracket to the last
    closing bracket exists and does not decode, the parser returns null; it
    does not go on to the slice between the braces. *)
Theorem undecodable_list_slice_is_final s i j :
  find "[" s = Some i -> rfind "]" s = Some j -> i <= j ->
  json_loads rt (slice i (j + 1) s) = Raise JSONDecodeError ->
  parse_llm_json_response rt s = Ok None.
Proof.
  intros Hi Hj Hle Hdec.
  rewrite (parse_takes_list_branch s i j Hi Hj Hle).
  unfold parse_list. now rewrite Hdec.
Qed.

(** The single-object branch is the one taken without such a pair. *)
Lemma parse_falls_back_without_list_slice s :
  String.eqb s EmptyString = false ->
  match find "[" s, rfind "]" s with
  | Some i, Some j => j < i
  | _, _ => True
  end ->
  parse_llm_json_response rt s = parse_single_object rt s.
Proof.
  intros Hs H. unfold parse_llm_json_response. rewrite Hs.
  destruct (find "[" s) as [i|]; [|reflexivity].
  destruct (rfind "]" s) as [j|]; [|reflexivity].
  destruct (Nat.ltb_spec j i); [reflexivity | lia].
Qed.

End Parser.

(** A reply whose bracket pair holds no JSON. *)
Lemma undecodable_list_slice_is_final_witness :
  parse_llm_json_response Demo.runtime Examples.noisy_reply = Ok None.
Proof.
  apply (undecodable_list_slice_is_final Demo.runtime Examples.noisy_reply 0 5).
  - reflexivity.
  - reflexivity.
  - lia.
  - vm_compute. reflexivity.
Defined.

(** C3, as stated, fails: the bracket slice of this reply does not decode,
    the slice between its braces decodes to a single record, and the parser
    returns null. *)
Lemma no_fallback_after_undecodable_list :
  json_loads Demo.runtime (slice 0 6 Examples.noisy_reply) = Raise JSONDecodeError
  /\ find "{" Examples.noisy_reply = Some 7
  /\ rfind "}" Examples.noisy_reply = Some 22
  /\ json_loads Demo.runtime (slice 7 23 Examples.noisy_reply)
     = Ok (VDict [("task", VStr "Fail")])
  /\ parse_llm_json_response Demo.runtime Examples.noisy_reply = Ok None.
Proof. vm_compute. repeat split; reflexivity. Qed.

(** The examples of the specification: an empty list, an object after
    commentary, and text without brackets or braces. *)
Lemma parse_examples :
  parse_llm_json_response Demo.runtime "[]" = Ok (Some [])
  /\ parse_llm_json_response Demo.runtime
       (Demo.json_text "Here is the JSON: {'task': 'Fail'}")
     = Ok (Some [VDict [("task", VStr "Fail")]])
  /\ parse_llm_json_response Demo.runtime "no structure here" = Ok None.
Proof. vm_compute. repeat split; reflexivity. Qed.

(** ** The json library reads back what it writes *)

Section JsonFacts.
Import Json.

(** Induction on values that reaches the elements of lists and the values
    of dictionaries. *)
Lemma value_nested_ind (P : value -> Prop) :
  P VNone -> (forall b, P (VBool b)) -> (forall n, P (VInt n)) ->
  (forall s, P (VStr s)) ->
  (forall l, Forall P l -> P (VList l)) ->
  (forall d, Forall (fun kv => P (snd kv)) d -> P (VDict d)) ->
  forall v, P v.
Proof.
  intros HNone HBool HInt HStr HList HDict. fix IH 1.
  intros [| b | n | s | l | d];
    [exact HNone | apply HBool | apply HInt | apply HStr | | ].
  - apply HList. induction l as [|x l IHl]; constructor; [apply IH | exact IHl].
  - apply HDict. induction d as [|[k v] d IHd]; constructor;
      [apply IH | exact IHd].
Qed.

(** *** White space *)

Lemma skip_ws_blank ws t :
  all_chars is_ws ws = true -> skip_ws (ws +:+ t) = skip_ws t.
Proof.
  induction ws as [|c ws IH]; intros H; [reflexivity|].
  cbn [all_chars] in H. apply andb_true_iff in H as [Hc H].
  change (String c ws +:+ t) with (String c (ws +:+ t)).
  cbn [skip_ws]. rewrite Hc. now apply IH.
Qed.

Lemma blank_spaces n : all_chars is_ws (spaces n) = true.
Proof. induction n as [|n IH]; [reflexivity | exact IH]. Qed.

Lemma blank_indent n : all_chars is_ws (newline +:+ spaces n) = true.
Proof. exact (blank_spaces n). Qed.

Lemma skip_ws_indent n t : skip_ws (newline +:+ spaces n +:+ t) = skip_ws t.
Proof.
  rewrite <- append_assoc. apply skip_ws_blank, blank_indent.
Qed.

(** *** String literals *)

Lemma scan_dump_char c t :
  scan_string (dump_char c +:+ t)
  = match scan_string t with
    | Some (str, rest) => Some (String c str, rest)
    | None => None
    end.
Proof.
  destruct c as [[] [] [] [] [] [] [] []]; reflexivity.
Qed.

Lemma scan_dump_chars s rest :
  scan_string (dump_chars s +:+ String "034" rest) = Some (s, rest).
Proof.
  induction s as [|c s IH]; [reflexivity|].
  cbn [dump_chars]. rewrite append_assoc, scan_dump_char, IH. reflexivity.
Qed.

Lemma dump_str_app s rest :
  dump_str s +:+ rest = String "034" (dump_chars s +:+ String "034" rest).
Proof.
  unfold dump_str.
  change (String "034" (dump_chars s) +:+ String "034" EmptyString)
    with (String "034" (dump_chars s +:+ String "034" EmptyString)).
  change (String "034" (dump_chars s +:+ String "034" EmptyString) +:+ rest)
    with (String "034" ((dump_chars s +:+ String "034" EmptyString) +:+ rest)).
  now rewrite append_assoc.
Qed.

(** *** Numbers *)

Lemma terminated_not_digit c r :
  terminated (String c r) = true -> is_digit c = false.
Proof.
  cbn [terminated]. intros H. apply orb_true_iff in H as [H|H];
    apply Ascii.eqb_eq in H; subst c; reflexivity.
Qed.

Lemma scan_digits_uint d : forall acc rest,
  terminated rest = true ->
  scan_digits acc (NilEmpty.string_of_uint d +:+ rest) = (horner acc d, rest).
Proof.
  induction d as [|d IH|d IH|d IH|d IH|d IH|d IH|d IH|d IH|d IH|d IH];
    intros acc rest Hr;
    try (cbn [NilEmpty.string_of_uint horner];
         match goal with
         | |- context [String ?c _ +:+ rest] =>
             change (String c (NilEmpty.string_of_uint d) +:+ rest)
               with (String c (NilEmpty.string_of_uint d +:+ rest))
         end;
         cbn [scan_digits]; apply (IH _ rest Hr)).
  cbn [NilEmpty.string_of_uint horner].
  change (EmptyString +:+ rest) with rest.
  destruct rest as [|c r]; [reflexivity|].
  cbn [scan_digits]. now rewrite (terminated_not_digit c r Hr).
Qed.

Lemma horner_pos d : forall acc : positive,
  horner (Zpos acc) d = Zpos (Pos.of_uint_acc d acc).
Proof.
  induction d as [|d IH|d IH|d IH|d IH|d IH|d IH|d IH|d IH|d IH|d IH];
    intros acc; cbn [horner Pos.of_uint_acc]; [reflexivity|..];
    rewrite <- IH; f_equal; lia.
Qed.

Lemma horner_zero d : horner 0 d = Z.of_N (Pos.of_uint d).
Proof.
  induction d as [|d IH|d IH|d IH|d IH|d IH|d IH|d IH|d IH|d IH|d IH];
    cbn [horner Pos.of_uint]; [reflexivity | exact IH |..];
    apply (horner_pos d).
Qed.

Lemma nzhead_leading d :
  match Decimal.nzhead d with Decimal.D0 _ => False | _ => True end.
Proof. induction d; cbn [Decimal.nzhead]; auto. Qed.

(** The decimal digits of a positive number begin with a digit that is not
    zero. *)
Lemma to_uint_leading p :
  match Pos.to_uint p with
  | Decimal.Nil | Decimal.D0 _ => False
  | _ => True
  end.
Proof.
  pose proof (DecimalPos.Unsigned.to_of (Pos.to_uint p)) as H.
  rewrite DecimalPos.Unsigned.of_to in H. cbn [N.to_uint] in H.
  pose proof (DecimalPos.Unsigned.to_uint_nonzero p) as Hz.
  pose proof (nzhead_leading (Pos.to_uint p)) as Hn.
  unfold Decimal.unorm in H.
  destruct (Decimal.nzhead (Pos.to_uint p)) eqn:E; rewrite H; auto.
Qed.

Lemma terminated_int n rest :
  terminated rest = true ->
  match rest with
  | String "." _ | String "e" _ | String "E" _ => None
  | _ => Some (n, rest)
  end = Some (n : Z, rest).
Proof.
  destruct rest as [|c r]; [reflexivity|]. cbn [terminated]. intros H.
  apply orb_true_iff in H as [H|H]; apply Ascii.eqb_eq in H; subst c;
    reflexivity.
Qed.

Lemma scan_int_uint d rest :
  match d with Decimal.Nil | Decimal.D0 _ => False | _ => True end ->
  terminated rest = true ->
  scan_int (NilEmpty.string_of_uint d +:+ rest) = Some (horner 0 d, rest)
  /\ scan_int (String "-" (NilEmpty.string_of_uint d +:+ rest))
     = Some ((- horner 0 d)%Z, rest).
Proof.
  intros Hd Hr.
  destruct d as [|d|d|d|d|d|d|d|d|d|d]; try contradiction;
    cbn [NilEmpty.string_of_uint];
    match goal with
    | |- context [String ?c _ +:+ rest] =>
        change (String c (NilEmpty.string_of_uint d) +:+ rest)
          with (String c (NilEmpty.string_of_uint d +:+ rest))
    end;
    unfold scan_int; cbn [is_digit between code nat_of_ascii Ascii.eqb];
    cbn [scan_digits];
    rewrite (scan_digits_uint d _ rest Hr);
    split; apply (terminated_int _ rest Hr).
Qed.

Lemma scan_int_dec n rest :
  terminated rest = true -> scan_int (dec_Z n +:+ rest) = Some (n, rest).
Proof.
  intros Hr. unfold dec_Z. destruct n as [|p|p]; cbn [Z.to_int].
  - cbn. apply (terminated_int 0%Z rest Hr).
  - pose proof (to_uint_leading p) as Hl.
    pose proof (DecimalPos.Unsigned.of_to p) as Hp.
    cbn [NilZero.string_of_int].
    replace (NilZero.string_of_uint (Pos.to_uint p))
      with (NilEmpty.string_of_uint (Pos.to_uint p))
      by (destruct (Pos.to_uint p); [contradiction | reflexivity..]).
    rewrite (proj1 (scan_int_uint _ rest Hl Hr)), horner_zero, Hp. reflexivity.
  - pose proof (to_uint_leading p) as Hl.
    pose proof (DecimalPos.Unsigned.of_to p) as Hp.
    cbn [NilZero.string_of_int].
    replace (NilZero.string_of_uint (Pos.to_uint p))
      with (NilEmpty.string_of_uint (Pos.to_uint p))
      by (destruct (Pos.to_uint p); [contradiction | reflexivity..]).
    change (String "-" (NilEmpty.string_of_uint (Pos.to_uint p)) +:+ rest)
      with (String "-" (NilEmpty.string_of_uint (Pos.to_uint p) +:+ rest)).
    rewrite (proj2 (scan_int_uint _ rest Hl Hr)), horner_zero, Hp. reflexivity.
Qed.

(** *** The decoder, one step at a time *)

Lemma decode_blank fuel ws t :
  all_chars is_ws ws = true -> decode fuel (ws +:+ t) = decode fuel t.
Proof.
  intros H. destruct fuel as [|fuel]; [reflexivity|].
  cbn [decode]. now rewrite (skip_ws_blank ws t H).
Qed.

Lemma decode_null fuel rest :
  decode (S fuel) ("null" +:+ rest) = Some (VNone, rest).
Proof. reflexivity. Qed.

Lemma decode_bool fuel (b : bool) rest :
  decode (S fuel) ((if b then "true" else "false") +:+ rest)
  = Some (VBool b, rest).
Proof. now destruct b. Qed.

Lemma decode_quote fuel t :
  decode (S fuel) (String "034" t)
  = match scan_string t with
    | Some (str, rest) => Some (VStr str, rest)
    | None => None
    end.
Proof. reflexivity. Qed.

Lemma decode_str fuel s rest :
  decode (S fuel) (dump_str s +:+ rest) = Some (VStr s, rest).
Proof. now rewrite dump_str_app, decode_quote, scan_dump_chars. Qed.

Lemma dec_Z_head n rest :
  exists c t, dec_Z n +:+ rest = String c t
              /\ (is_digit c || Ascii.eqb c "-") = true.
Proof.
  unfold dec_Z. destruct n as [|p|p]; cbn [Z.to_int NilZero.string_of_int].
  - eexists _, _. split; reflexivity.
  - pose proof (to_uint_leading p) as Hl.
    destruct (Pos.to_uint p); try contradiction;
      eexists _, _; split; reflexivity.
  - eexists _, _. split; reflexivity.
Qed.

Lemma decode_number fuel c t :
  (is_digit c || Ascii.eqb c "-") = true ->
  decode (S fuel) (String c t)
  = match scan_int (String c t) with
    | Some (n, rest) => Some (VInt n, rest)
    | None => None
    end.
Proof.
  destruct c as [[] [] [] [] [] [] [] []]; intros H;
    try discriminate H; reflexivity.
Qed.

Lemma decode_int fuel n rest :
  terminated rest = true ->
  decode (S fuel) (dec_Z n +:+ rest) = Some (VInt n, rest).
Proof.
  intros Hr. destruct (dec_Z_head n rest) as [c [t [E Hc]]].
  pose proof (scan_int_dec n rest Hr) as Hs. rewrite E in *.
  now rewrite (decode_number fuel c t Hc), Hs.
Qed.

Lemma decode_open_list fuel t c u :
  skip_ws t = String c u -> Ascii.eqb c "]" = false ->
  decode (S fuel) (String "[" t) = decode_items fuel t.
Proof.
  intros Ht Hc.
  change (decode (S fuel) (String "[" t))
    with (match skip_ws t with
          | String "]" rest' => Some (VList [], rest')
          | _ => decode_items fuel t
          end).
  rewrite Ht. destruct c as [[] [] [] [] [] [] [] []];
    try reflexivity; discriminate Hc.
Qed.

Lemma decode_open_dict fuel t c u :
  skip_ws t = String c u -> Ascii.eqb c "}" = false ->
  decode (S fuel) (String "{" t) = decode_members fuel [] t.
Proof.
  intros Ht Hc.
  change (decode (S fuel) (String "{" t))
    with (match skip_ws t with
          | String "}" rest' => Some (VDict [], rest')
          | _ => decode_members fuel [] t
          end).
  rewrite Ht. destruct c as [[] [] [] [] [] [] [] []];
    try reflexivity; discriminate Hc.
Qed.

Lemma decode_items_eq fuel s :
  decode_items (S fuel) s
  = match decode fuel s with
    | Some (v, rest) =>
        match skip_ws rest with
        | String "]" rest' => Some (VList [v], rest')
        | String "," rest' =>
            match decode_items fuel rest' with
            | Some (VList l, rest'') => Some (VList (v :: l), rest'')
            | _ => None
            end
        | _ => None
        end
    | None => None
    end.
Proof. reflexivity. Qed.

Lemma decode_items_close fuel s v k rest :
  decode fuel s = Some (v, newline +:+ spaces k +:+ "]" +:+ rest) ->
  decode_items (S fuel) s = Some (VList [v], rest).
Proof.
  intros H. rewrite decode_items_eq, H. cbv beta iota.
  now rewrite skip_ws_indent.
Qed.

Lemma decode_items_comma fuel s v t :
  decode fuel s = Some (v, "," +:+ t) ->
  decode_items (S fuel) s
  = match decode_items fuel t with
    | Some (VList l, rest) => Some (VList (v :: l), rest)
    | _ => None
    end.
Proof. intros H. now rewrite decode_items_eq, H. Qed.

Lemma decode_members_blank fuel acc ws t :
  all_chars is_ws ws = true ->
  decode_members fuel acc (ws +:+ t) = decode_members fuel acc t.
Proof.
  intros H. destruct fuel as [|fuel]; [reflexivity|].
  cbn [decode_members]. now rewrite (skip_ws_blank ws t H).
Qed.

Lemma decode_members_quote fuel acc t :
  decode_members (S fuel) acc (String "034" t)
  = match scan_string t with
    | Some (key, rest) =>
        match skip_ws rest with
        | String ":" rest =>
            match decode fuel rest with
            | Some (v, rest) =>
                let acc := dict_set key v acc in
                match skip_ws rest with
                | String "}" rest' => Some (VDict acc, rest')
                | String "," rest' => decode_members fuel acc rest'
                | _ => None
                end
            | None => None
            end
        | _ => None
        end
    | None => None
    end.
Proof. reflexivity. Qed.

Lemma decode_member fuel acc k t :
  decode_members (S fuel) acc (dump_str k +:+ ": " +:+ t)
  = match decode fuel t with
    | Some (v, rest) =>
        match skip_ws rest with
        | String "}" rest' => Some (VDict (dict_set k v acc), rest')
        | String "," rest' => decode_members fuel (dict_set k v acc) rest'
        | _ => None
        end
    | None => None
    end.
Proof.
  rewrite dump_str_app, decode_members_quote, scan_dump_chars.
  assert (Hws : skip_ws (": " +:+ t) = String ":" (spaces 1 +:+ t))
    by reflexivity.
  rewrite Hws. cbv beta iota zeta.
  rewrite (decode_blank fuel (spaces 1) t) by reflexivity.
  reflexivity.
Qed.

Lemma decode_member_close fuel acc k t v n rest :
  decode fuel t = Some (v, newline +:+ spaces n +:+ "}" +:+ rest) ->
  decode_members (S fuel) acc (dump_str k +:+ ": " +:+ t)
  = Some (VDict (dict_set k v acc), rest).
Proof.
  intros H. rewrite decode_member, H. cbv beta iota.
  now rewrite skip_ws_indent.
Qed.

Lemma decode_member_comma fuel acc k t v u :
  decode fuel t = Some (v, "," +:+ u) ->
  decode_members (S fuel) acc (dump_str k +:+ ": " +:+ t)
  = decode_members fuel (dict_set k v acc) u.
Proof. intros H. now rewrite decode_member, H. Qed.

(** *** Lists and objects *)

Lemma dump_head level v rest :
  exists c u,
    dump level v +:+ rest = String c u
    /\ is_ws c = false /\ Ascii.eqb c "]" = false /\ Ascii.eqb c "}" = false.
Proof.
  destruct v as [| b | n | s | [|x l] | [|kv d]].
  - eexists _, _. repeat split; reflexivity.
  - destruct b; eexists _, _; repeat split; reflexivity.
  - destruct (dec_Z_head n rest) as [c [u [E Hc]]]. exists c, u.
    split; [exact E|].
    destruct c as [[] [] [] [] [] [] [] []]; try discriminate Hc;
      repeat split; reflexivity.
  - cbn [dump]. rewrite dump_str_app. eexists _, _. repeat split; reflexivity.
  - eexists _, _. repeat split; reflexivity.
  - eexists _, _. repeat split; reflexivity.
  - eexists _, _. repeat split; reflexivity.
  - eexists _, _. repeat split; reflexivity.
Qed.

Lemma join_cons sep a b l :
  join sep (a :: b :: l) = a +:+ sep +:+ join sep (b :: l).
Proof. reflexivity. Qed.

Lemma join_head sep a l tail :
  exists y, join sep (a :: l) +:+ tail = a +:+ y.
Proof.
  destruct l as [|b l]; [now eexists|].
  rewrite join_cons, !append_assoc. now eexists.
Qed.

Lemma skip_ws_value level v tail :
  exists c u,
    skip_ws (dump level v +:+ tail) = String c u
    /\ Ascii.eqb c "]" = false /\ Ascii.eqb c "}" = false.
Proof.
  destruct (dump_head level v tail) as [c [u (E & Hws & H1 & H2)]].
  exists c, u. rewrite E. cbn [skip_ws]. now rewrite Hws.
Qed.

Lemma decode_indent fuel m t :
  decode fuel (newline +:+ spaces m +:+ t) = decode fuel t.
Proof.
  rewrite <- append_assoc. apply decode_blank, blank_indent.
Qed.

Lemma decode_members_indent fuel acc m t :
  decode_members fuel acc (newline +:+ spaces m +:+ t)
  = decode_members fuel acc t.
Proof.
  rewrite <- append_assoc. apply decode_members_blank, blank_indent.
Qed.

Lemma decode_items_dump level m k rest : forall xs x fuel,
  Forall decodes (x :: xs) ->
  String.length
    (join ("," +:+ newline +:+ spaces m) (map (dump level) (x :: xs))) + 2
  <= fuel ->
  decode_items fuel
    (newline +:+ spaces m
     +:+ join ("," +:+ newline +:+ spaces m) (map (dump level) (x :: xs))
     +:+ newline +:+ spaces k +:+ "]" +:+ rest)
  = Some (VList (x :: xs), rest).
Proof.
  induction xs as [|x' xs IH]; intros x fuel HP Hfuel;
    (destruct fuel as [|fuel]; [lia|]);
    inversion HP as [|? ? Hx HP']; subst.
  - cbn [map join] in *.
    apply decode_items_close with (k := k). rewrite decode_indent.
    apply Hx; [reflexivity | lia].
  - cbn [map] in *. rewrite join_cons in *.
    rewrite !length_append in Hfuel.
    change (String.length ",") with 1 in Hfuel.
    rewrite !append_assoc.
    rewrite (decode_items_comma fuel _ x
               (newline +:+ spaces m
                +:+ join ("," +:+ newline +:+ spaces m)
                      (dump level x' :: map (dump level) xs)
                +:+ newline +:+ spaces k +:+ "]" +:+ rest)).
    + rewrite IH; [reflexivity | exact HP' | lia].
    + rewrite decode_indent. apply Hx; [reflexivity | lia].
Qed.

Lemma dict_set_fresh k (v : value) (acc : dict) :
  dict_mem k acc = false -> dict_set k v acc = acc ++ [(k, v)].
Proof.
  induction acc as [|[k' v'] acc IH]; intros H; [reflexivity|].
  unfold dict_mem in H. cbn [dict_get] in H. cbn [dict_set app].
  destruct (String.eqb k k'); [discriminate|].
  f_equal. apply IH. exact H.
Qed.

Lemma dict_mem_snoc k k' (v : value) (acc : dict) :
  dict_mem k (acc ++ [(k', v)]) = dict_mem k acc || String.eqb k k'.
Proof.
  unfold dict_mem. induction acc as [|[k0 v0] acc IH]; cbn [app dict_get].
  - now destruct (String.eqb k k').
  - destruct (String.eqb k k0); [reflexivity | exact IH].
Qed.

Lemma decode_members_dump level m k rest : forall d kv fuel acc,
  Forall (fun kv => decodes (snd kv)) (kv :: d) ->
  unique_keys (kv :: d) = true ->
  forallb (fun kv' => negb (dict_mem (fst kv') acc)) (kv :: d) = true ->
  String.length
    (join ("," +:+ newline +:+ spaces m)
       (map (fun kv => dump_str (fst kv) +:+ ": " +:+ dump level (snd kv))
          (kv :: d))) + 2
  <= fuel ->
  decode_members fuel acc
    (newline +:+ spaces m
     +:+ join ("," +:+ newline +:+ spaces m)
           (map (fun kv => dump_str (fst kv) +:+ ": " +:+ dump level (snd kv))
              (kv :: d))
     +:+ newline +:+ spaces k +:+ "}" +:+ rest)
  = Some (VDict (acc ++ kv :: d), rest).
Proof.
  induction d as [|kv' d IH]; intros [key v] fuel acc HP Hu Hfresh Hfuel;
    (destruct fuel as [|fuel]; [lia|]);
    inversion HP as [|? ? Hv HP']; subst; cbn [fst snd] in Hv;
    rewrite forallb_forall in Hfresh;
    pose proof (Hfresh (key, v) (or_introl eq_refl)) as Hkey;
    cbn [fst] in Hkey; apply negb_true_iff in Hkey.
  - cbn [map join fst snd] in *.
    rewrite decode_members_indent, !append_assoc.
    rewrite (decode_member_close fuel acc key _ v k rest).
    + now rewrite (dict_set_fresh key v acc Hkey).
    + rewrite !length_append in Hfuel. apply Hv; [reflexivity | lia].
  - cbn [map] in *. rewrite join_cons in *. cbn [fst snd] in *.
    rewrite !length_append in Hfuel.
    change (String.length ",") with 1 in Hfuel.
    rewrite decode_members_indent, !append_assoc.
    rewrite (decode_member_comma fuel acc key _ v
               (newline +:+ spaces m
                +:+ join ("," +:+ newline +:+ spaces m)
                      (map (fun kv => dump_str (fst kv) +:+ ": "
                                      +:+ dump level (snd kv)) (kv' :: d))
                +:+ newline +:+ spaces k +:+ "}" +:+ rest)).
    + rewrite (dict_set_fresh key v acc Hkey).
      cbn [unique_keys] in Hu. apply andb_true_iff in Hu as [Hk Hu].
      apply negb_true_iff in Hk.
      cbn [map].
      rewrite (IH kv' fuel (acc ++ [(key, v)]));
        [now rewrite <- app_assoc | exact HP' | exact Hu | |].
      * apply forallb_forall. intros [k1 v1] Hin. cbn [fst].
        rewrite dict_mem_snoc. apply negb_true_iff, orb_false_iff. split.
        -- apply negb_true_iff. exact (Hfresh (k1, v1) (or_intror Hin)).
        -- apply String.eqb_neq. intros ->.
           apply dict_mem_In in Hin. congruence.
      * cbn [map]. lia.
    + apply Hv; [reflexivity | lia].
Qed.

Lemma dump_list level x xs :
  dump level (VList (x :: xs))
  = "[" +:+ newline +:+ spaces (2 * S level)
    +:+ join ("," +:+ newline +:+ spaces (2 * S level))
          (map (dump (S level)) (x :: xs))
    +:+ newline +:+ spaces (2 * level) +:+ "]".
Proof. reflexivity. Qed.

Lemma dump_dict level kv d :
  dump level (VDict (kv :: d))
  = "{" +:+ newline +:+ spaces (2 * S level)
    +:+ join ("," +:+ newline +:+ spaces (2 * S level))
          (map (fun kv => dump_str (fst kv) +:+ ": " +:+ dump (S level) (snd kv))
             (kv :: d))
    +:+ newline +:+ spaces (2 * level) +:+ "}".
Proof. reflexivity. Qed.

(** The decoder reads back every value from the text of the encoder. *)
Lemma decode_dump : forall v, python_value v = true -> decodes v.
Proof.
  induction v as [| b | n | s | l IHl | d IHd] using value_nested_ind;
    intros Hpy level fuel rest Hr Hfuel;
    (destruct fuel as [|fuel]; [lia|]).
  - apply decode_null.
  - apply decode_bool.
  - now apply decode_int.
  - apply decode_str.
  - destruct l as [|x xs]; [reflexivity|].
    assert (HP : Forall decodes (x :: xs)).
    { cbn [python_value] in Hpy. rewrite forallb_forall in Hpy.
      rewrite List.Forall_forall in IHl. apply List.Forall_forall.
      intros y Hy. apply IHl; [exact Hy | now apply Hpy]. }
    rewrite dump_list in *. rewrite !length_append in Hfuel.
    cbn [String.length] in Hfuel.
    rewrite !append_assoc.
    change ("[" +:+ newline +:+ spaces (2 * S level)
            +:+ join ("," +:+ newline +:+ spaces (2 * S level))
                  (map (dump (S level)) (x :: xs))
            +:+ newline +:+ spaces (2 * level) +:+ "]" +:+ rest)
      with (String "[" (newline +:+ spaces (2 * S level)
            +:+ join ("," +:+ newline +:+ spaces (2 * S level))
                  (map (dump (S level)) (x :: xs))
            +:+ newline +:+ spaces (2 * level) +:+ "]" +:+ rest)).
    destruct (join_head ("," +:+ newline +:+ spaces (2 * S level))
                (dump (S level) x) (map (dump (S level)) xs)
                (newline +:+ spaces (2 * level) +:+ "]" +:+ rest)) as [y Hy].
    destruct (skip_ws_value (S level) x y) as [c [u (Hc & Hc1 & _)]].
    rewrite (decode_open_list fuel _ c u).
    + apply decode_items_dump; [exact HP | lia].
    + rewrite skip_ws_indent. cbn [map]. now rewrite Hy.
    + exact Hc1.
  - destruct d as [|kv d]; [reflexivity|].
    cbn [python_value] in Hpy. apply andb_true_iff in Hpy as [Hu Hpy].
    assert (HP : Forall (fun kv => decodes (snd kv)) (kv :: d)).
    { rewrite forallb_forall in Hpy. rewrite List.Forall_forall in IHd.
      apply List.Forall_forall. intros y Hy. apply IHd; [exact Hy|].
      now destruct (proj1 (andb_true_iff _ _) (Hpy y Hy)). }
    rewrite dump_dict in *. rewrite !length_append in Hfuel.
    cbn [String.length] in Hfuel.
    rewrite !append_assoc.
    change ("{" +:+ ?t) with (String "{" t).
    destruct (join_head ("," +:+ newline +:+ spaces (2 * S level))
                (dump_str (fst kv) +:+ ": " +:+ dump (S level) (snd kv))
                (map (fun kv => dump_str (fst kv) +:+ ": "
                                +:+ dump (S level) (snd kv)) d)
                (newline +:+ spaces (2 * level) +:+ "}" +:+ rest)) as [y Hy].
    rewrite (decode_open_dict fuel _ "034"
               (dump_chars (fst kv)
                +:+ String "034" (": " +:+ dump (S level) (snd kv) +:+ y))).
    + apply (decode_members_dump (S level) _ _ rest d kv fuel []);
        [exact HP | exact Hu | | lia].
      apply forallb_forall. now intros.
    + rewrite skip_ws_indent. cbn [map]. rewrite Hy.
      now rewrite append_assoc, dump_str_app.
    + reflexivity.
Qed.

(** *** The text of the encoder

    A property of texts that holds of ASCII text without carriage returns
    and of encoded strings, and that appending preserves, holds of every
    text the encoder writes. *)

Section Closed.
Variable Phi : string -> Prop.
Hypothesis Phi_plain : forall a, all_chars plain_char a = true -> Phi a.
Hypothesis Phi_app : forall a b, Phi a -> Phi b -> Phi (a +:+ b).
Hypothesis Phi_chars : forall s, utf8_valid s = true -> Phi (dump_chars s).

Lemma closed_str s : utf8_valid s = true -> Phi (dump_str s).
Proof.
  intros H. unfold dump_str.
  change (String "034" (dump_chars s))
    with (String "034" EmptyString +:+ dump_chars s).
  rewrite append_assoc. apply Phi_app; [now apply Phi_plain|].
  apply Phi_app; [now apply Phi_chars | now apply Phi_plain].
Qed.

Lemma closed_join sep l : Phi sep -> Forall Phi l -> Phi (join sep l).
Proof.
  intros Hsep Hl. induction Hl as [|a l Ha Hl IH]; [now apply Phi_plain|].
  destruct l as [|b l]; [exact Ha|].
  rewrite join_cons. apply Phi_app; [exact Ha|]. now apply Phi_app.
Qed.

Lemma plain_spaces n : all_chars plain_char (spaces n) = true.
Proof. induction n as [|n IH]; [reflexivity | exact IH]. Qed.

Lemma plain_digits d : all_chars plain_char (NilEmpty.string_of_uint d) = true.
Proof. induction d; [reflexivity | exact IHd ..]. Qed.

Lemma plain_dec_Z n : all_chars plain_char (dec_Z n) = true.
Proof.
  unfold dec_Z. destruct n as [|p|p]; cbn [Z.to_int NilZero.string_of_int];
    [reflexivity | |];
    pose proof (to_uint_leading p) as Hl;
    pose proof (plain_digits (Pos.to_uint p)) as Hd;
    destruct (Pos.to_uint p); try contradiction; exact Hd.
Qed.

Lemma closed_sep m : Phi ("," +:+ newline +:+ spaces m).
Proof. apply Phi_plain. exact (plain_spaces m). Qed.

Lemma closed_brackets (opening closing : string) m k J :
  all_chars plain_char opening = true ->
  all_chars plain_char closing = true ->
  Phi J ->
  Phi (opening +:+ newline +:+ spaces m +:+ J
       +:+ newline +:+ spaces k +:+ closing).
Proof.
  intros Ho Hc HJ.
  apply Phi_app; [now apply Phi_plain|].
  apply Phi_app; [now apply Phi_plain|].
  apply Phi_app; [apply Phi_plain, plain_spaces|].
  apply Phi_app; [exact HJ|].
  apply Phi_app; [now apply Phi_plain|].
  apply Phi_app; [apply Phi_plain, plain_spaces | now apply Phi_plain].
Qed.

Lemma closed_dump : forall v level, python_value v = true -> Phi (dump level v).
Proof.
  induction v as [| b | n | s | l IHl | d IHd] using value_nested_ind;
    intros level Hpy.
  - now apply Phi_plain.
  - apply Phi_plain. now destruct b.
  - apply Phi_plain, plain_dec_Z.
  - now apply closed_str.
  - destruct l as [|x xs]; [now apply Phi_plain|].
    rewrite dump_list. apply closed_brackets; try reflexivity.
    apply closed_join; [apply closed_sep|].
    cbn [python_value] in Hpy. rewrite forallb_forall in Hpy.
    rewrite List.Forall_forall in IHl.
    apply List.Forall_forall. intros y Hy.
    apply in_map_iff in Hy as [z [<- Hz]].
    apply IHl; [exact Hz | now apply Hpy].
  - destruct d as [|kv d]; [now apply Phi_plain|].
    rewrite dump_dict. apply closed_brackets; try reflexivity.
    apply closed_join; [apply closed_sep|].
    cbn [python_value] in Hpy. apply andb_true_iff in Hpy as [_ Hpy].
    rewrite forallb_forall in Hpy. rewrite List.Forall_forall in IHd.
    apply List.Forall_forall. intros y Hy.
    apply in_map_iff in Hy as [z [<- Hz]].
    destruct (proj1 (andb_true_iff _ _) (Hpy z Hz)) as [Hk Hv].
    apply Phi_app; [now apply closed_str|].
    apply Phi_app; [now apply Phi_plain|]. now apply IHd.
Qed.

End Closed.

(** *** Carriage returns *)

Lemma occurs_app c a b : occurs c (a +:+ b) = occurs c a || occurs c b.
Proof.
  induction a as [|x a IH]; [reflexivity|].
  change (String x a +:+ b) with (String x (a +:+ b)).
  cbn [occurs]. now rewrite IH, orb_assoc.
Qed.

Lemma plain_no_return a :
  all_chars plain_char a = true -> occurs "013" a = false.
Proof.
  induction a as [|c a IH]; [reflexivity|]. cbn [all_chars occurs].
  intros H. apply andb_true_iff in H as [Hc H]. rewrite (IH H).
  unfold plain_char in Hc. apply andb_true_iff in Hc as [_ Hc].
  apply negb_true_iff in Hc. now rewrite Hc.
Qed.

Lemma dump_char_no_return c : occurs "013" (dump_char c) = false.
Proof. destruct c as [[] [] [] [] [] [] [] []]; reflexivity. Qed.

Lemma dump_chars_no_return s : occurs "013" (dump_chars s) = false.
Proof.
  induction s as [|c s IH]; [reflexivity|].
  cbn [dump_chars]. now rewrite occurs_app, dump_char_no_return, IH.
Qed.

Lemma dump_no_return v level :
  python_value v = true -> occurs "013" (dump level v) = false.
Proof.
  apply (closed_dump (fun a => occurs "013" a = false)).
  - apply plain_no_return.
  - intros a b Ha Hb. now rewrite occurs_app, Ha, Hb.
  - intros s _. apply dump_chars_no_return.
Qed.

Lemma universal_newlines_id s :
  occurs "013" s = false -> universal_newlines s = s.
Proof.
  induction s as [|c s IH]; [reflexivity|]. cbn [occurs]. intros H.
  apply orb_false_iff in H as [Hc H]. specialize (IH H).
  destruct c as [[] [] [] [] [] [] [] []]; try discriminate Hc;
    cbn [universal_newlines]; now rewrite IH.
Qed.

(** *** UTF-8 *)

Lemma utf8_valid_ascii c s :
  (code c <? 128) = true -> utf8_valid (String c s) = utf8_valid s.
Proof. intros H. cbn [utf8_valid]. now rewrite H. Qed.

Lemma plain_utf8 a t :
  all_chars plain_char a = true -> utf8_valid (a +:+ t) = utf8_valid t.
Proof.
  induction a as [|c a IH]; [reflexivity|]. cbn [all_chars].
  intros H. apply andb_true_iff in H as [Hc H].
  change (String c a +:+ t) with (String c (a +:+ t)).
  unfold plain_char in Hc. apply andb_true_iff in Hc as [Hc _].
  rewrite utf8_valid_ascii by exact Hc. now apply IH.
Qed.

Lemma dump_char_plain c :
  (code c <? 128) = true -> all_chars plain_char (dump_char c) = true.
Proof.
  destruct c as [[] [] [] [] [] [] [] []]; intros H;
    try discriminate H; reflexivity.
Qed.

Lemma dump_char_high c :
  (code c <? 128) = false -> dump_char c = String c EmptyString.
Proof.
  destruct c as [[] [] [] [] [] [] [] []]; intros H;
    try discriminate H; reflexivity.
Qed.

Lemma between_high lo hi c :
  128 <= lo -> between lo hi c = true -> (code c <? 128) = false.
Proof.
  unfold between. intros Hlo H. apply andb_true_iff in H as [H _].
  apply Nat.leb_le in H. apply Nat.ltb_ge. lia.
Qed.

Lemma dump_chars_high c s t :
  (code c <? 128) = false ->
  dump_chars (String c s) +:+ t = String c (dump_chars s +:+ t).
Proof.
  intros H. cbn [dump_chars]. now rewrite (dump_char_high c H).
Qed.

Lemma utf8_dump_chars : forall n s t,
  String.length s <= n -> utf8_valid s = true ->
  utf8_valid (dump_chars s +:+ t) = utf8_valid t.
Proof.
  induction n as [|n IH]; intros s t Hlen Hv.
  - destruct s; [reflexivity | cbn [String.length] in Hlen; lia].
  - destruct s as [|b0 s1]; [reflexivity|]. cbn [String.length] in Hlen.
    destruct (code b0 <? 128) eqn:H0.
    + rewrite utf8_valid_ascii in Hv by exact H0.
      cbn [dump_chars]. rewrite append_assoc.
      rewrite plain_utf8 by (now apply dump_char_plain).
      apply IH; [lia | exact Hv].
    + rewrite (dump_chars_high b0 s1 t H0).
      cbn [utf8_valid] in Hv |- *. rewrite H0 in Hv |- *.
      destruct s1 as [|b1 s2]; [discriminate Hv|].
      cbn [String.length] in Hlen.
      destruct (between 194 223 b0) eqn:H2.
      * apply andb_true_iff in Hv as [Hb1 Hv].
        rewrite (dump_chars_high b1 s2 t)
          by (now apply (between_high 128 191)).
        rewrite Hb1. cbn [andb]. apply IH; [lia | exact Hv].
      * destruct s2 as [|b2 s3]; [discriminate Hv|].
        cbn [String.length] in Hlen.
        destruct (between 224 239 b0) eqn:H3.
        -- apply andb_true_iff in Hv as [Hv Hv3].
           apply andb_true_iff in Hv as [Hb1 Hb2].
           rewrite (dump_chars_high b1 (String b2 s3) t)
             by (eapply between_high; [|exact Hb1]; destruct (code b0 =? 224); lia).
           rewrite (dump_chars_high b2 s3 t)
             by (now apply (between_high 128 191)).
           rewrite Hb1, Hb2. cbn [andb]. apply IH; [lia | exact Hv3].
        -- destruct s3 as [|b3 s4]; [discriminate Hv|].
           cbn [String.length] in Hlen.
           apply andb_true_iff in Hv as [Hv Hv4].
           apply andb_true_iff in Hv as [Hv Hb3].
           apply andb_true_iff in Hv as [Hv Hb2].
           apply andb_true_iff in Hv as [Hb0 Hb1].
           rewrite (dump_chars_high b1 (String b2 (String b3 s4)) t)
             by (eapply between_high; [|exact Hb1]; destruct (code b0 =? 240); lia).
           rewrite (dump_chars_high b2 (String b3 s4) t)
             by (now apply (between_high 128 191)).
           rewrite (dump_chars_high b3 s4 t)
             by (now apply (between_high 128 191)).
           rewrite Hb0, Hb1, Hb2, Hb3. cbn [andb]. apply IH; [lia | exact Hv4].
Qed.

Lemma dump_utf8 v level :
  python_value v = true -> utf8_valid (dump level v) = true.
Proof.
  intros Hpy.
  assert (H : forall t, utf8_valid (dump level v +:+ t) = utf8_valid t).
  { apply (closed_dump (fun a => forall t, utf8_valid (a +:+ t) = utf8_valid t));
      [| | | exact Hpy].
    - intros a Ha t. now apply plain_utf8.
    - intros a b Ha Hb t. now rewrite append_assoc, Ha, Hb.
    - intros s Hs t. now apply (utf8_dump_chars (String.length s)). }
  specialize (H EmptyString). now rewrite append_empty in H.
Qed.

(** *** Writing and reading a document *)

(** A text of the encoder is read from a file as it was written. *)
Lemma read_dump v level :
  python_value v = true -> read_text (dump level v) = Ok (dump level v).
Proof.
  intros Hpy. unfold read_text. rewrite (dump_utf8 v level Hpy).
  now rewrite universal_newlines_id by (now apply dump_no_return).
Qed.

Lemma loads_dumps v : python_value v = true -> loads (dumps v) = Ok v.
Proof.
  intros Hpy. unfold loads, dumps.
  pose proof (decode_dump v Hpy 0 (S (String.length (dump 0 v))) EmptyString
                eq_refl (Nat.lt_succ_diag_r _)) as H.
  rewrite append_empty in H. now rewrite H.
Qed.

(** A runtime with the json library reads back every value of Python as it
    wrote it. *)
Lemma json_reads_back rt v :
  json_library rt -> python_value v = true -> reads_back rt v.
Proof.
  intros [Hd Hl] Hpy. unfold reads_back. rewrite Hd, Hl. unfold dumps at 1.
  rewrite (read_dump v 0 Hpy). cbn [bind]. now apply loads_dumps.
Qed.

End JsonFacts.

(** ** load_action_items and save_action_items *)

Section Store.
Variable rt : runtime.

Lemma load_absent fs project_id :
  files fs !! get_project_file_path rt project_id = None ->
  load_action_items rt fs project_id = Ok [].
Proof. intros H. unfold load_action_items. now rewrite H. Qed.

(** A document that cannot be opened or does not decode is read as an empty
    store. *)
Lemma load_undecodable fs project_id bytes :
  files fs !! get_project_file_path rt project_id = Some bytes ->
  json_load rt fs (get_project_file_path rt project_id) bytes = Raise IOError
  \/ json_load rt fs (get_project_file_path rt project_id) bytes
     = Raise JSONDecodeError ->
  load_action_items rt fs project_id = Ok [].
Proof.
  intros Hfile H. unfold load_action_items. rewrite Hfile.
  now destruct H as [-> | ->].
Qed.

(** So is a document that decodes to something else than a list. *)
Lemma load_not_a_list fs project_id bytes v :
  files fs !! get_project_file_path rt project_id = Some bytes ->
  json_load rt fs (get_project_file_path rt project_id) bytes = Ok v ->
  (forall l, v <> VList l) ->
  load_action_items rt fs project_id = Ok [].
Proof.
  intros Hfile Hload Hv. unfold load_action_items. rewrite Hfile, Hload.
  destruct v; try reflexivity. now destruct (Hv l).
Qed.

(** A document that is not UTF-8 makes the loader raise: the decoding error
    is a [ValueError] that neither handler of the loader catches. *)
Lemma load_raises_on_invalid_utf8 fs project_id bytes :
  files fs !! get_project_file_path rt project_id = Some bytes ->
  bool_decide (get_project_file_path rt project_id ∈ unreadable fs) = false ->
  utf8_valid bytes = false ->
  load_action_items rt fs project_id = Raise UnicodeDecodeError.
Proof.
  intros Hfile Hread Hutf. unfold load_action_items, json_load, read_text.
  now rewrite Hfile, Hread, Hutf.
Qed.

(** After a successful save under one project, loading a project with the
    same document yields what the runtime reads back from the text it
    wrote. *)
Lemma load_after_save fs fs' p q items :
  get_project_file_path rt p = get_project_file_path rt q ->
  save_action_items rt fs p items = (fs', true) ->
  bool_decide (get_project_file_path rt q ∈ unreadable fs) = false ->
  reads_back rt (VList items) ->
  load_action_items rt fs' q = Ok items.
Proof.
  unfold save_action_items, load_action_items, json_load, reads_back.
  intros Hpath Hsave Hread Hback. rewrite Hpath in Hsave.
  destruct (makedirs_fails fs); [discriminate|].
  destruct (bool_decide (_ ∈ unwritable fs)); [discriminate|].
  injection Hsave as <-. cbn [files unreadable].
  rewrite lookup_insert_eq, Hread, Hback. reflexivity.
Qed.

(** C7: a save that succeeded, followed by a load of the same project,
    yields the saved items, field for field: the json library decodes the
    document to the list that was encoded.  The items are any values of
    Python (text, numbers, booleans, null, lists and records); the document
    can be opened for reading. *)
Theorem save_then_load fs fs' project_id items :
  json_library rt ->
  python_value (VList items) = true ->
  save_action_items rt fs project_id items = (fs', true) ->
  bool_decide (get_project_file_path rt project_id ∈ unreadable fs) = false ->
  load_action_items rt fs' project_id = Ok items.
Proof.
  intros Hlib Hpy Hsave Hread.
  apply (load_after_save fs fs' project_id project_id items eq_refl Hsave Hread).
  now apply json_reads_back.
Qed.

End Store.

(** Saving the stored item of the demonstration to an empty directory and
    loading it again. *)
Lemma save_then_load_witness :
  load_action_items Demo.runtime
    (fst (save_action_items Demo.runtime Examples.empty_disk "TestProc"
            [VDict Examples.docs_item]))
    "TestProc"
  = Ok [VDict Examples.docs_item].
Proof.
  apply (save_then_load Demo.runtime Examples.empty_disk _ "TestProc"
           [VDict Examples.docs_item]).
  - split; reflexivity.
  - reflexivity.
  - reflexivity.
  - vm_compute. reflexivity.
Defined.

(** C8: on a document that is not UTF-8 the loader raises instead of
    returning an empty sequence. *)
Theorem load_of_corrupt_document_raises :
  load_action_items Demo.runtime Examples.corrupt_disk "TestProc"
  = Raise UnicodeDecodeError.
Proof.
  apply load_raises_on_invalid_utf8 with (bytes := String "255" EmptyString).
  - apply lookup_singleton_eq.
  - vm_compute. reflexivity.
  - reflexivity.
Qed.

(** ** The creation branch *)

Section Creation.
Variable rt : runtime.

(** The branch raises unless the value under the key of its progress message
    can be sliced; a candidate without that key has the value null there. *)
Lemma create_from_raises project_id c st :
  sliceable (default VNone (dict_get task_tab c)) = false ->
  create_from rt project_id c st = Raise TypeError.
Proof. intros H. unfold create_from. now rewrite H. Qed.

(** X15: past the progress message the creation branch appends one item: its
    id is the next draw of the generator, whatever id the candidate brought,
    its task is the candidate's, its status is the candidate's when that is
    valid and Open otherwise, its source is the extraction marker and its
    history is empty. *)
Lemma create_from_item project_id c st task :
  sliceable (default VNone (dict_get task_tab c)) = true ->
  dict_get "task" c = Some task ->
  exists item,
    create_from rt project_id c st
    = Ok {| existing_items := existing_items st;
            newly_created_items := newly_created_items st ++ [item];
            rng := tick_uuid (tick_clock (rng st)) |}
    /\ dict_get "id" item = Some (VStr (uuid4 rt (uuid_draws (rng st))))
    /\ dict_get "task" item = Some task
    /\ dict_get "status" item
       = Some (match dict_get "status" c with
               | Some v => if is_valid_status v then v else VStr "Open"
               | None => VStr "Open"
               end)
    /\ dict_get "source_meeting" item = Some (VStr "LLM Extraction")
    /\ dict_get "update_history" item = Some (VList []).
Proof.
  intros Hslice Htask. unfold create_from, create_action_item.
  rewrite Hslice, Htask.
  destruct (dict_get "status" c) as [v|]; [destruct (is_valid_status v)|];
    eexists; repeat split; reflexivity.
Qed.

(** Whenever the merge returns, its output is the stored list, position by
    position, followed by the created items. *)
Lemma process_items_length project_id m cs : forall st st',
  process_items rt project_id m cs st = Ok st' ->
  length (existing_items st') = length (existing_items st).
Proof.
  induction cs as [|c cs IH]; intros st st' H; cbn [process_items] in H.
  - now injection H as <-.
  - destruct (process_item rt project_id m st c) as [st1|] eqn:Hc;
      [|discriminate].
    cbn [bind] in H. rewrite (IH st1 st' H). clear IH H.
    unfold process_item in Hc. destruct c as [| | | | |c]; try discriminate.
    destruct (lookup_existing m _) as [[i|]|]; cbn [bind] in Hc;
      try discriminate.
    + destruct (existing_items st !! i) as [[| | | | |d]|]; try discriminate.
      destruct (update_action_item rt d (field_updates c) (rng st)).
      injection Hc as <-. simpl. apply length_insert.
    + destruct (dict_mem "task" c); [|now injection Hc as <-].
      unfold create_from in Hc.
      destruct (sliceable _); [|discriminate].
      destruct (dict_get "task" c); [|discriminate].
      destruct (create_action_item _ _ _ _ _ _ _ _).
      now injection Hc as <-.
Qed.

Lemma merge_output_order project_id cs existing e out e' :
  process_parsed_items rt project_id cs existing e = Ok (out, e') ->
  exists updated created,
    out = updated ++ created /\ length updated = length existing.
Proof.
  unfold process_parsed_items. intros H.
  destruct (build_map existing 0 []) as [m|]; [|discriminate].
  cbn [bind] in H.
  destruct (process_items rt project_id m cs _) as [st|] eqn:Hst;
    [|discriminate].
  cbn [bind] in H. injection H as <- <-.
  eexists _, _. split; [reflexivity|].
  now rewrite (process_items_length _ _ _ _ _ Hst).
Qed.

End Creation.


(** ** update_action_item: frame, order of keys, valid updates *)

Section UpdateMore.
Variable rt : runtime.
Implicit Types (item updates : dict).

Lemma dict_mem_get_none {A} k (d : list (string * A)) :
  dict_mem k d = false -> dict_get k d = None.
Proof. unfold dict_mem. now destruct (dict_get k d). Qed.

(** A field the mapping does not name keeps its value, unless it is one of
    the two fields the update maintains. *)
Lemma update_get_unnamed item updates e k :
  dict_mem k updates = false -> bookkeeping k = false ->
  dict_get k (fst (update_action_item rt item updates e)) = dict_get k item.
Proof.
  intros Hk Hb. unfold update_action_item.
  pose proof (apply_fields_get_other rt updates item [] k Hk) as Hget.
  fold (apply_fields rt item updates) in Hget.
  destruct (apply_fields rt item updates) as [assigned log]. simpl in *.
  rewrite <- Hget, <- (record_history_get_other (now rt e) log assigned k Hb).
  unfold check_status.
  destruct (dict_get "status" updates) as [v|] eqn:Hv; [|reflexivity].
  destruct (is_valid_status v); [reflexivity|].
  apply dict_get_set_ne. intros ->.
  apply dict_mem_get_none in Hk. congruence.
Qed.

(** X1: a field that the mapping does not name, other than [updated_at] and
    [update_history], has after the update the value it had before. *)
Theorem update_leaves_unnamed_fields item updates e k :
  dict_mem k updates = false -> bookkeeping k = false ->
  dict_get k (fst (update_action_item rt item updates e)) = dict_get k item.
Proof. apply update_get_unnamed. Qed.

Lemma keys_dict_set k (v : value) (d : dict) :
  keys d `prefix_of` keys (dict_set k v d).
Proof.
  induction d as [|[k' v'] d IH]; simpl.
  - apply prefix_nil.
  - destruct (String.eqb k k'); simpl; [reflexivity|].
    now apply prefix_cons.
Qed.

Lemma keys_apply_fields updates : forall item log,
  keys item `prefix_of` keys (fst (fold_left (apply_field rt) updates (item, log))).
Proof.
  induction updates as [|kv updates IH]; intros item log; cbn [fold_left].
  - reflexivity.
  - rewrite apply_field_description.
    etransitivity; [|apply IH].
    destruct (differs item kv); [apply keys_dict_set | reflexivity].
Qed.

(** X2: the update removes no key and keeps the order of the keys the item
    had: they are a prefix of the keys after the update, new keys follow. *)
Theorem update_keeps_keys item updates e :
  keys item `prefix_of` keys (fst (update_action_item rt item updates e)).
Proof.
  unfold update_action_item.
  pose proof (keys_apply_fields updates item []) as H.
  fold (apply_fields rt item updates) in H.
  destruct (apply_fields rt item updates) as [assigned log]. simpl in *.
  etransitivity; [exact H|]. clear H.
  transitivity (keys (record_history (now rt e) log assigned)).
  - destruct log; simpl; [reflexivity|].
    etransitivity; apply keys_dict_set.
  - unfold check_status.
    destruct (dict_get "status" updates) as [v|]; [|reflexivity].
    destruct (is_valid_status v); [reflexivity | apply keys_dict_set].
Qed.

Lemma check_status_plain updates log item :
  plain_updates updates = true -> check_status updates log item = item.
Proof.
  unfold plain_updates, check_status. intros H.
  apply andb_true_iff in H as [_ H].
  destruct (dict_get "status" updates) as [v|]; [now rewrite H | reflexivity].
Qed.

Lemma plain_updates_not_bookkeeping updates k w :
  plain_updates updates = true -> dict_get k updates = Some w ->
  bookkeeping k = false.
Proof.
  unfold plain_updates, bookkeeping. intros H Hk.
  apply andb_true_iff in H as [H _]. apply andb_true_iff in H as [H1 H2].
  apply negb_true_iff in H1, H2. apply dict_mem_get_none in H1, H2.
  destruct (String.eqb_spec k "updated_at") as [->|_]; [congruence|].
  destruct (String.eqb_spec k "update_history") as [->|_]; [congruence|].
  reflexivity.
Qed.

(** With a mapping that names neither of the two maintained fields and no
    invalid status, every supplied value is in force after the update. *)
Lemma update_applied item updates e k w :
  unique_keys updates = true -> plain_updates updates = true ->
  dict_get k updates = Some w ->
  exists w',
    dict_get k (fst (update_action_item rt item updates e)) = Some w'
    /\ (w' = w \/ py_eq w' w = true).
Proof.
  intros Hu Hp Hk. unfold update_action_item.
  pose proof (apply_fields_applied rt updates item [] k w Hu (dict_get_In _ _ _ Hk))
    as [w' [Hget Hw']].
  fold (apply_fields rt item updates) in Hget.
  destruct (apply_fields rt item updates) as [assigned log]. simpl in *.
  exists w'. split; [|exact Hw'].
  rewrite check_status_plain by exact Hp.
  rewrite record_history_get_other; [exact Hget|].
  eapply plain_updates_not_bookkeeping; eauto.
Qed.

(** X3: when the mapping names neither [updated_at] nor [update_history] and
    its status, if any, is valid, every field it supplies holds after the
    update the supplied value, or the equal value it held already. *)
Theorem valid_update_takes_effect item updates e k w :
  unique_keys updates = true -> plain_updates updates = true ->
  dict_get k updates = Some w ->
  exists w',
    dict_get k (fst (update_action_item rt item updates e)) = Some w'
    /\ (w' = w \/ py_eq w' w = true).
Proof. apply update_applied. Qed.




Lemma unique_keys_get k (v : value) (d : dict) :
  unique_keys d = true -> In (k, v) d -> dict_get k d = Some v.
Proof.
  induction d as [|[k' v'] d IH]; intros Hu Hin; [destruct Hin|].
  cbn [unique_keys] in Hu. apply andb_true_iff in Hu as [Hk Hu].
  apply negb_true_iff in Hk. cbn [dict_get].
  destruct Hin as [Heq|Hin].
  - injection Heq as -> ->. now rewrite String.eqb_refl.
  - destruct (String.eqb_spec k k') as [->|_]; [|now apply IH].
    apply dict_mem_In in Hin. congruence.
Qed.

(** [==] is reflexive on decoded values. *)
Lemma py_eq_refl : forall v, wf_value v = true -> py_eq v v = true.
Proof.
  induction v as [| b | n | s | l IHl | d IHd] using value_nested_ind;
    intros Hwf; simpl.
  - reflexivity.
  - now destruct b.
  - apply Z.eqb_refl.
  - apply String.eqb_refl.
  - simpl in Hwf. induction IHl as [|x l Hx _ IH]; [reflexivity|].
    cbn [forallb] in Hwf. apply andb_true_iff in Hwf as [Hwx Hl].
    now rewrite (Hx Hwx), IH.
  - simpl in Hwf. apply andb_true_iff in Hwf as [Hu Hall].
    rewrite Nat.eqb_refl. simpl.
    assert (Hsub : forall k v, In (k, v) d -> dict_get k d = Some v)
      by (intros k v; now apply unique_keys_get).
    assert (Haux : forall d0 : dict,
      Forall (fun kv => wf_value (snd kv) = true -> py_eq (snd kv) (snd kv) = true) d0 ->
      forallb (fun kv => wf_value (snd kv)) d0 = true ->
      (forall k v, In (k, v) d0 -> dict_get k d = Some v) ->
      (fix go (d1 : dict) : bool :=
         match d1 with
         | [] => true
         | (k, v) :: d' =>
             match dict_get k d with
             | Some w => py_eq v w
             | None => false
             end && go d'
         end) d0 = true).
    { induction 1 as [|[k v] d0 Hv _ IH]; intros Hall0 Hsub0; [reflexivity|].
      cbn [forallb snd] in Hall0. apply andb_true_iff in Hall0 as [Hwv Hall0].
      rewrite (Hsub0 k v) by (now left). simpl in Hv. rewrite (Hv Hwv). simpl.
      apply IH; [exact Hall0|]. intros k' v' Hin. apply Hsub0. now right. }
    now apply Haux.
Qed.

(** X4: applying such a mapping a second time changes nothing: no new
    history entry, no new time stamp. *)
Theorem valid_update_idempotent item updates e e' :
  wf_updates updates = true -> plain_updates updates = true ->
  let item1 := fst (update_action_item rt item updates e) in
  fst (update_action_item rt item1 updates e') = item1.
Proof.
  intros Hwf Hp item1.
  apply andb_true_iff in Hwf as [Hu Hwf].
  assert (Hsame : existsb (differs item1) updates = false).
  { destruct (existsb (differs item1) updates) eqn:E; [|reflexivity].
    apply existsb_exists in E as [[k w] [Hin Hd]].
    pose proof (unique_keys_get k w updates Hu Hin) as Hk.
    destruct (update_applied item updates e k w Hu Hp Hk)
      as [w' [Hget Hw']].
    fold item1 in Hget. unfold differs in Hd. simpl in Hd. rewrite Hget in Hd.
    apply negb_true_iff in Hd. destruct Hw' as [->|Hw']; [|congruence].
    rewrite forallb_forall in Hwf. specialize (Hwf (k, w) Hin). simpl in Hwf.
    rewrite (py_eq_refl w Hwf) in Hd. discriminate. }
  unfold update_action_item at 1.
  pose proof (apply_fields_noop rt updates item1 [] Hsame) as Hnoop.
  fold (apply_fields rt item1 updates) in Hnoop. rewrite Hnoop. simpl.
  now apply check_status_plain.
Qed.

(** X5: an item whose status is one of the four valid values has a valid
    status after every update (with keys that occur once and none that
    imitates the status marker): a valid new status is taken, an invalid one
    is put back. *)
Theorem update_keeps_status_valid item updates e s :
  unique_keys updates = true -> no_status_lookalike updates = true ->
  dict_get "status" item = Some s -> is_valid_status s = true ->
  exists s',
    dict_get "status" (fst (update_action_item rt item updates e)) = Some s'
    /\ is_valid_status s' = true.
Proof.
  intros Hu Hl Hs Hvalid.
  assert (Hstr : exists old, s = VStr old).
  { unfold is_valid_status in Hvalid.
    apply existsb_exists in Hvalid as [t [_ Ht]].
    destruct s; simpl in Ht; try discriminate; try (now destruct b). eauto. }
  destruct Hstr as [old ->].
  destruct (dict_get "status" updates) as [v|] eqn:Hv.
  - destruct (is_valid_status v) eqn:Hvv.
    + (* a valid status is assigned or was there already *)
      unfold update_action_item.
      pose proof (apply_fields_applied rt updates item [] "status" v Hu
                    (dict_get_In _ _ _ Hv)) as [w' [Hget Hw']].
      fold (apply_fields rt item updates) in Hget.
      destruct (apply_fields rt item updates) as [assigned log]. simpl in *.
      exists w'. unfold check_status. rewrite Hv, Hvv.
      rewrite record_history_get_other by reflexivity. split; [exact Hget|].
      destruct Hw' as [->|Hw']; [exact Hvv|].
      unfold is_valid_status in Hvv.
      apply existsb_exists in Hvv as [t [Hin Ht]].
      destruct v; simpl in Ht; try discriminate; try (now destruct b).
      apply String.eqb_eq in Ht. subst.
      destruct w'; simpl in Hw'; try discriminate; try (now destruct b).
      apply String.eqb_eq in Hw'. subst.
      unfold is_valid_status. apply existsb_exists. exists t.
      split; [exact Hin | apply String.eqb_refl].
    + (* an invalid status is put back *)
      exists (VStr old). split; [|exact Hvalid].
      assert (Hne : py_eq (VStr old) v = false).
      { destruct (py_eq (VStr old) v) eqn:E; [|reflexivity].
        apply py_eq_str in E. congruence. }
      unfold update_action_item.
      pose proof (apply_fields_log rt updates item item [] Hu (fun _ _ => eq_refl))
        as Hlog.
      fold (apply_fields rt item updates) in Hlog.
      destruct (apply_fields rt item updates) as [assigned log]. simpl in *.
      subst log. unfold check_status. rewrite Hv, Hvv.
      rewrite dict_get_set_eq. f_equal.
      apply (original_status_of_log rt item v); try assumption.
      now apply valid_status_recoverable.
  - exists (VStr old). split; [|exact Hvalid].
    rewrite update_get_unnamed; [exact Hs | | reflexivity].
    unfold dict_mem. now rewrite Hv.
Qed.

End UpdateMore.


(** ** parse_llm_json_response: replies wrapped in commentary *)

Section ParserMore.
Variable rt : runtime.
Implicit Types (s pre body post : string) (c : ascii).

Lemma find_app_absent c pre s :
  occurs c pre = false ->
  find c (pre +:+ s)
  = match find c s with
    | Some i => Some (String.length pre + i)
    | None => None
    end.
Proof.
  induction pre as [|a pre IH]; intros H.
  - change (EmptyString +:+ s) with s. now destruct (find c s).
  - cbn [occurs] in H. apply orb_false_iff in H as [Ha H].
    change (String a pre +:+ s) with (String a (pre +:+ s)).
    cbn [find]. rewrite Ha, (IH H). now destruct (find c s).
Qed.

Lemma find_absent c s : occurs c s = false -> find c s = None.
Proof.
  induction s as [|a s IH]; [reflexivity|]. cbn [occurs find].
  intros H. apply orb_false_iff in H as [-> H]. now rewrite IH.
Qed.

Lemma rfind_absent c s : occurs c s = false -> rfind c s = None.
Proof.
  induction s as [|a s IH]; [reflexivity|]. cbn [occurs rfind].
  intros H. apply orb_false_iff in H as [-> H]. now rewrite IH.
Qed.

Lemma rfind_app_absent c s post :
  occurs c post = false -> rfind c (s +:+ post) = rfind c s.
Proof.
  intros H. induction s as [|a s IH].
  - change (EmptyString +:+ post) with post. now apply rfind_absent.
  - change (String a s +:+ post) with (String a (s +:+ post)).
    cbn [rfind]. now rewrite IH.
Qed.

Lemma rfind_app_found c pre s j :
  rfind c s = Some j -> rfind c (pre +:+ s) = Some (String.length pre + j).
Proof.
  intros H. induction pre as [|a pre IH]; [exact H|].
  change (String a pre +:+ s) with (String a (pre +:+ s)).
  cbn [rfind]. now rewrite IH.
Qed.

Lemma find_first c body post :
  startswith (String c EmptyString) body = true ->
  find c (body +:+ post) = Some 0.
Proof.
  destruct body as [|a body]; [discriminate|]. unfold startswith.
  change (String a body +:+ post) with (String a (body +:+ post)).
  cbn [strip_prefix find]. rewrite (Ascii.eqb_sym a c).
  now destruct (Ascii.eqb c a).
Qed.

Lemma rfind_last c body :
  endswith_char c body = true -> rfind c body = Some (String.length body - 1).
Proof.
  induction body as [|a body IH]; [discriminate|].
  destruct body as [|b body].
  - simpl. now intros ->.
  - intros H. change (endswith_char c (String b body) = true) in H.
    cbn [rfind] in *. rewrite (IH H). simpl. now rewrite Nat.sub_0_r.
Qed.

Lemma substring_skip pre n t :
  String.substring (String.length pre) n (pre +:+ t) = String.substring 0 n t.
Proof. induction pre as [|a pre IH]; [reflexivity | exact IH]. Qed.

Lemma substring_whole body post :
  String.substring 0 (String.length body) (body +:+ post) = body.
Proof.
  induction body as [|a body IH]; [now destruct post|].
  simpl. now rewrite IH.
Qed.

(** The slice between the first and the last character of [body], wrapped in
    [pre] and [post], is [body]. *)
Lemma slice_body pre body post :
  body <> EmptyString ->
  slice (String.length pre) (String.length pre + (String.length body - 1) + 1)
        (pre +:+ body +:+ post)
  = body.
Proof.
  intros Hb. unfold slice.
  replace (String.length pre + (String.length body - 1) + 1 - String.length pre)
    with (String.length body)
    by (destruct body; [contradiction | simpl; lia]).
  now rewrite substring_skip, substring_whole.
Qed.

Lemma app_nonempty pre body post :
  body <> EmptyString -> String.eqb (pre +:+ body +:+ post) EmptyString = false.
Proof.
  intros Hb. apply String.eqb_neq. intros E.
  apply (f_equal String.length) in E. rewrite !length_append in E.
  destruct body; [contradiction | simpl in E; lia].
Qed.

(** X7: a JSON list wrapped in commentary is found: when no opening bracket
    precedes it and no closing bracket follows it, the parser returns the
    list it decodes to. *)
Theorem parse_list_in_commentary pre body post l :
  occurs "[" pre = false -> occurs "]" post = false ->
  startswith "[" body = true -> endswith_char "]" body = true ->
  json_loads rt body = Ok (VList l) ->
  parse_llm_json_response rt (pre +:+ body +:+ post) = Ok (Some l).
Proof.
  intros Hpre Hpost Hfirst Hlast Hdec.
  assert (Hb : body <> EmptyString) by (intros ->; discriminate).
  unfold parse_llm_json_response. rewrite (app_nonempty pre body post Hb).
  rewrite (find_app_absent _ pre _ Hpre).
  rewrite (find_first _ body post Hfirst).
  rewrite (rfind_app_found _ pre _ (String.length body - 1)) by
    (rewrite rfind_app_absent by exact Hpost; now apply rfind_last).
  destruct (Nat.ltb_spec (String.length pre + (String.length body - 1))
                         (String.length pre + 0)); [lia|].
  unfold parse_list. rewrite Nat.add_0_r, (slice_body pre body post Hb), Hdec.
  reflexivity.
Qed.

(** X8: a single JSON object wrapped in commentary is found when the reply
    has no pair of brackets at all: the parser returns the one-element list
    of the record it decodes to. *)
Theorem parse_object_in_commentary pre body post d :
  occurs "[" (pre +:+ body +:+ post) && occurs "]" (pre +:+ body +:+ post) = false ->
  occurs "{" pre = false -> occurs "}" post = false ->
  startswith "{" body = true -> endswith_char "}" body = true ->
  json_loads rt body = Ok (VDict d) ->
  parse_llm_json_response rt (pre +:+ body +:+ post) = Ok (Some [VDict d]).
Proof.
  intros Hlist Hpre Hpost Hfirst Hlast Hdec.
  assert (Hb : body <> EmptyString) by (intros ->; discriminate).
  assert (Hobj : parse_single_object rt (pre +:+ body +:+ post)
                 = Ok (Some [VDict d])).
  { unfold parse_single_object.
    rewrite (find_app_absent _ pre _ Hpre).
    rewrite (find_first _ body post Hfirst).
    rewrite (rfind_app_found _ pre _ (String.length body - 1)) by
      (rewrite rfind_app_absent by exact Hpost; now apply rfind_last).
    assert (Hlen : 2 <= String.length body).
    { destruct body as [|a [|b body]]; [contradiction | | simpl; lia].
      unfold startswith in Hfirst. cbn [strip_prefix] in Hfirst.
      cbn [endswith_char] in Hlast.
      destruct (Ascii.eqb_spec "{" a) as [Ha|_]; [|discriminate Hfirst].
      subst a. vm_compute in Hlast. discriminate Hlast. }
    destruct (Nat.ltb_spec (String.length pre + 0)
                (String.length pre + (String.length body - 1))); [|lia].
    rewrite Nat.add_0_r, (slice_body pre body post Hb), Hdec. reflexivity. }
  unfold parse_llm_json_response. rewrite (app_nonempty pre body post Hb).
  apply andb_false_iff in Hlist as [H|H].
  - now rewrite (find_absent _ _ H).
  - rewrite (rfind_absent _ _ H). now destruct (find "[" _).
Qed.

(** X6: the parser never lets a decode error escape: whatever the reply, it
    does not raise [JSONDecodeError]. *)
Theorem parse_contains_decode_errors s :
  parse_llm_json_response rt s <> Raise JSONDecodeError.
Proof.
  assert (Hobj : parse_single_object rt s <> Raise JSONDecodeError).
  { unfold parse_single_object.
    destruct (find "{" s) as [i|]; [|discriminate].
    destruct (rfind "}" s) as [j|]; [|discriminate].
    destruct (i <? j); [|discriminate].
    destruct (json_loads rt _) as [[]|[]]; discriminate. }
  unfold parse_llm_json_response.
  destruct (String.eqb s EmptyString); [discriminate|].
  destruct (find "[" s) as [i|]; [|exact Hobj].
  destruct (rfind "]" s) as [j|]; [|exact Hobj].
  destruct (j <? i); [exact Hobj|].
  unfold parse_list. destruct (json_loads rt _) as [[]|[]]; discriminate.
Qed.

End ParserMore.

(** A list between two sentences. *)
Lemma parse_list_in_commentary_witness :
  parse_llm_json_response Demo.runtime
    ("Here you go: " +:+ Demo.json_text "[{'id': 'xyz-123', 'status': 'Completed'}]"
     +:+ " Anything else?")
  = Ok (Some [VDict [("id", VStr "xyz-123"); ("status", VStr "Completed")]]).
Proof.
  apply (parse_list_in_commentary Demo.runtime);
    vm_compute; reflexivity.
Defined.

(** An object between two sentences. *)
Lemma parse_object_in_commentary_witness :
  parse_llm_json_response Demo.runtime
    ("Here is the JSON: " +:+ Demo.json_text "{'task': 'Fail'}" +:+ " Done.")
  = Ok (Some [VDict [("task", VStr "Fail")]]).
Proof.
  apply (parse_object_in_commentary Demo.runtime);
    vm_compute; reflexivity.
Defined.


(** ** process_parsed_items: what every returning merge guarantees *)

Section MergeMore.
Variable rt : runtime.

Lemma build_map_ok_stored items : forall i m m',
  build_map items i m = Ok m' -> forallb stored items = true.
Proof.
  induction items as [|item items IH]; intros i m m' H; [reflexivity|].
  destruct item as [| | | | |d]; try discriminate. cbn [build_map] in H.
  cbn [forallb stored].
  destruct (dict_get "id" d) as [id|]; [|discriminate].
  destruct (hashable id); [|discriminate]. simpl. eauto.
Qed.

(** The creation branch, when it returns, has appended one item of the
    expected shape and nothing else has changed. *)
Lemma create_from_shape project_id c st st' :
  create_from rt project_id c st = Ok st' ->
  existing_items st' = existing_items st
  /\ exists item,
       newly_created_items st' = newly_created_items st ++ [item]
       /\ created_shape rt project_id item.
Proof.
  unfold create_from, create_action_item. intros H.
  destruct (sliceable _); [|discriminate].
  destruct (dict_get "task" c) as [task|]; [|discriminate].
  injection H as <-. split; [reflexivity|]. eexists. split; [reflexivity|].
  unfold created_shape.
  destruct (dict_get "status" c) as [v|]; [destruct (is_valid_status v) eqn:Hv|];
    simpl; repeat split; eauto.
Qed.

(** One round of the loop, when it returns, keeps the identity of the stored
    records and the shape of the created items. *)
Lemma process_item_returns project_id m existing st c st' :
  process_item rt project_id m st c = Ok st' ->
  Forall2 preserved existing (existing_items st) ->
  Forall (created_shape rt project_id) (newly_created_items st) ->
  Forall2 preserved existing (existing_items st')
  /\ Forall (created_shape rt project_id) (newly_created_items st').
Proof.
  intros H Hp Hc. unfold process_item in H.
  destruct c as [| | | | |c]; try discriminate.
  destruct (lookup_existing m _) as [[i|]|]; cbn [bind] in H; try discriminate.
  - destruct (existing_items st !! i) as [[| | | | |d]|] eqn:Hi;
      try discriminate.
    pose proof (update_preserved rt d c (rng st)) as Hup.
    destruct (update_action_item rt d (field_updates c) (rng st)) as [item e'].
    injection H as <-. simpl. split; [|exact Hc].
    destruct (Forall2_lookup_r _ _ _ _ _ Hp Hi) as [x [Hx Hpx]].
    rewrite <- (list_insert_id existing i x) by exact Hx.
    apply Forall2_insert; [exact Hp|].
    eapply preserved_trans; [exact Hpx | exact Hup].
  - destruct (dict_mem "task" c); [|now injection H as <-].
    apply create_from_shape in H as [He [item [Hn Hs]]].
    rewrite He, Hn. split; [exact Hp|].
    apply Forall_app. split; [exact Hc | now constructor].
Qed.

Lemma process_items_returns project_id m existing cs : forall st st',
  process_items rt project_id m cs st = Ok st' ->
  Forall2 preserved existing (existing_items st) ->
  Forall (created_shape rt project_id) (newly_created_items st) ->
  Forall2 preserved existing (existing_items st')
  /\ Forall (created_shape rt project_id) (newly_created_items st').
Proof.
  induction cs as [|c cs IH]; intros st st' H Hp Hc; cbn [process_items] in H.
  - injection H as <-. auto.
  - destruct (process_item rt project_id m st c) as [st1|] eqn:H1;
      [|discriminate].
    cbn [bind] in H.
    destruct (process_item_returns _ _ _ _ _ _ H1 Hp Hc) as [Hp1 Hc1].
    eauto.
Qed.

Lemma merge_returns project_id cs existing e out e' :
  process_parsed_items rt project_id cs existing e = Ok (out, e') ->
  exists updated created,
    out = updated ++ map VDict created
    /\ Forall2 preserved existing updated
    /\ Forall (created_shape rt project_id) created.
Proof.
  unfold process_parsed_items. intros H.
  destruct (build_map existing 0 []) as [m|] eqn:Hm; [|discriminate].
  cbn [bind] in H.
  destruct (process_items rt project_id m cs _) as [st|] eqn:Hst;
    [|discriminate].
  cbn [bind] in H. injection H as <- <-.
  apply build_map_ok_stored in Hm.
  destruct (process_items_returns _ _ existing _ _ _ Hst
              (stored_preserved existing Hm) (List.Forall_nil _)) as [Hp Hc].
  eauto.
Qed.

(** X9: whenever the merge returns, its output is the stored list, position
    by position, followed by the created items, and every stored record has
    kept its [id], [project_id], [created_at] and earlier history entries. *)
Theorem merge_returns_stored_then_created project_id cs existing e out e' :
  process_parsed_items rt project_id cs existing e = Ok (out, e') ->
  exists updated created,
    out = updated ++ created
    /\ Forall2 preserved existing updated.
Proof.
  intros H. destruct (merge_returns _ _ _ _ _ _ H) as [u [c (-> & Hp & _)]].
  eauto.
Qed.

(** X10: whenever the merge returns, every item after the stored ones is a
    created record with a generated id, the given project id, a valid
    status, equal creation and update times, the extraction marker and an
    empty history. *)
Theorem merge_creates_wellformed_items project_id cs existing e out e' :
  process_parsed_items rt project_id cs existing e = Ok (out, e') ->
  exists created,
    drop (length existing) out = map VDict created
    /\ Forall (created_shape rt project_id) created.
Proof.
  intros H. destruct (merge_returns _ _ _ _ _ _ H) as [u [c (-> & Hp & Hc)]].
  exists c. split; [|exact Hc].
  rewrite (Forall2_length _ _ _ Hp). now rewrite drop_app_length.
Qed.

Lemma lookup_existing_found m cid i :
  lookup_existing m cid = Ok (Some i) -> map_get cid m = Some i.
Proof.
  unfold lookup_existing. destruct (truthy cid); [|discriminate].
  destruct (hashable cid); [|discriminate]. congruence.
Qed.

(** X11: whenever the merge returns, a stored record whose id no candidate
    carries is returned at its position exactly as it was. *)
Theorem merge_leaves_untargeted_records
    project_id cs existing e out e' j item id :
  process_parsed_items rt project_id cs existing e = Ok (out, e') ->
  existing !! j = Some item -> id_of item = Some id ->
  targeted cs id = false ->
  out !! j = Some item.
Proof.
  unfold process_parsed_items. intros H Hj Hid Ht.
  destruct (build_map existing 0 []) as [m|] eqn:Hm; [|discriminate].
  cbn [bind] in H.
  destruct (process_items rt project_id m cs _) as [st|] eqn:Hst;
    [|discriminate].
  cbn [bind] in H. injection H as <- <-.
  destruct (build_map_existing existing (build_map_ok_stored _ _ _ _ Hm))
    as [m0 (Hm0 & Hs & _)].
  assert (m0 = m) by congruence. subst m0.
  assert (Hloop : forall cs st st',
    targeted cs id = false ->
    process_items rt project_id m cs st = Ok st' ->
    existing_items st !! j = Some item ->
    existing_items st' !! j = Some item).
  { clear Hst Ht st cs. induction cs as [|c cs IH]; intros st st' Ht H Hst;
      cbn [process_items] in H.
    - now injection H as <-.
    - destruct (process_item rt project_id m st c) as [st1|] eqn:H1;
        [|discriminate].
      cbn [bind] in H. cbn [targeted existsb] in Ht.
      apply orb_false_iff in Ht as [Hc Ht].
      apply (IH st1 st' Ht H). clear IH H.
      unfold process_item in H1. destruct c as [| | | | |c]; try discriminate.
      destruct (lookup_existing m _) as [[i|]|] eqn:Hl; cbn [bind] in H1;
        try discriminate.
      + destruct (existing_items st !! i) as [[| | | | |d]|]; try discriminate.
        destruct (update_action_item rt d (field_updates c) (rng st)).
        injection H1 as <-. simpl.
        rewrite list_lookup_insert_ne; [exact Hst|].
        intros ->. apply lookup_existing_found in Hl.
        destruct (map_get_sound m existing _ j Hs Hl) as [d0 [id0 (Hd0 & Hid0 & Heq)]].
        rewrite Hj in Hd0. injection Hd0 as ->. simpl in Hid.
        rewrite Hid0 in Hid. injection Hid as ->.
        unfold candidate_id in Hc. congruence.
      + destruct (dict_mem "task" c); [|now injection H1 as <-].
        apply create_from_shape in H1 as [-> _]. exact Hst. }
  apply lookup_app_l_Some. now apply (Hloop cs _ st Ht Hst).
Qed.

(** X13: without the key of the progress message no item is ever created:
    if no candidate has that key and the merge returns, the output has the
    length of the stored list. *)
Theorem merge_creates_nothing_without_task_tab
    project_id cs existing e out e' :
  forallb without_task_tab cs = true ->
  process_parsed_items rt project_id cs existing e = Ok (out, e') ->
  length out = length existing.
Proof.
  unfold process_parsed_items. intros Hcs H.
  destruct (build_map existing 0 []) as [m|]; [|discriminate].
  cbn [bind] in H.
  destruct (process_items rt project_id m cs _) as [st|] eqn:Hst;
    [|discriminate].
  cbn [bind] in H. injection H as <- <-.
  assert (Hloop : forall cs st st',
    forallb without_task_tab cs = true ->
    process_items rt project_id m cs st = Ok st' ->
    newly_created_items st' = newly_created_items st).
  { clear Hst Hcs st cs. induction cs as [|c cs IH]; intros st st' Hcs H;
      cbn [process_items] in H.
    - now injection H as <-.
    - destruct (process_item rt project_id m st c) as [st1|] eqn:H1;
        [|discriminate].
      cbn [bind] in H. cbn [forallb] in Hcs.
      apply andb_true_iff in Hcs as [Hc Hcs].
      rewrite (IH st1 st' Hcs H). clear IH H.
      unfold process_item in H1. destruct c as [| | | | |c]; try discriminate.
      destruct (lookup_existing m _) as [[i|]|]; cbn [bind] in H1;
        try discriminate.
      + destruct (existing_items st !! i) as [[| | | | |d]|]; try discriminate.
        destruct (update_action_item rt d (field_updates c) (rng st)).
        now injection H1 as <-.
      + destruct (dict_mem "task" c); [|now injection H1 as <-].
        simpl in Hc. apply negb_true_iff in Hc.
        unfold create_from in H1. unfold dict_mem in Hc.
        destruct (dict_get task_tab c); discriminate. }
  rewrite length_app, length_map, (Hloop cs _ st Hcs Hst).
  rewrite (process_items_length rt _ _ _ _ _ Hst). simpl. lia.
Qed.








End MergeMore.



(** ** The store: paths, errors, isolation *)

Section StoreMore.
Variable rt : runtime.

(** An ASCII identifier has its bytes as characters. *)
Lemma chars_ascii s :
  ascii_only s = true ->
  Forall (fun c => exists b, c = String b EmptyString /\ (code b <? 128) = true)
         (chars s).
Proof.
  induction s as [|b s IH]; intros H; [constructor|].
  unfold ascii_only in H. cbn [all_chars] in H.
  apply andb_true_iff in H as [Hb H]. specialize (IH H). cbn [chars].
  destruct (chars s) as [|c cs]; [repeat constructor; eauto|].
  inversion IH as [|? ? [b' [-> Hb']] _]; subst.
  assert (Hc : continues (String b' EmptyString) = false).
  { cbn [continues]. unfold between. apply Nat.ltb_lt in Hb'.
    apply andb_false_iff. left. apply Nat.leb_gt. exact Hb'. }
  rewrite Hc. constructor; [eauto | exact IH].
Qed.

Lemma join_empty_cons a l : join EmptyString (a :: l) = a +:+ join EmptyString l.
Proof. destruct l; [now rewrite append_empty | reflexivity]. Qed.

(** Of ASCII characters the path keeps letters, digits, underscores and
    hyphens, whatever the Unicode database says. *)
Lemma safe_ascii_characters l :
  Forall (fun c => exists b, c = String b EmptyString /\ (code b <? 128) = true) l ->
  all_chars safe_char
    (join EmptyString
       (List.filter
          (fun c => isalnum rt c || String.eqb c "_" || String.eqb c "-") l))
  = true.
Proof.
  induction 1 as [|c l [b [-> Hb]] _ IH]; [reflexivity|].
  cbn [List.filter isalnum]. rewrite Hb.
  assert (Hu : String.eqb (String b EmptyString) "_" = Ascii.eqb b "_")
    by (cbn; now destruct (Ascii.eqb b "_")).
  assert (Hh : String.eqb (String b EmptyString) "-" = Ascii.eqb b "-")
    by (cbn; now destruct (Ascii.eqb b "-")).
  rewrite Hu, Hh. fold (safe_char b).
  destruct (safe_char b) eqn:Hs; [|exact IH].
  rewrite join_empty_cons.
  change (String b EmptyString +:+ ?x) with (String b x).
  cbn [all_chars]. now rewrite Hs.
Qed.

Lemma safe_name_not_absolute name ext :
  name <> EmptyString -> all_chars safe_char name = true ->
  startswith "/" (name +:+ ext) = false.
Proof.
  destruct name as [|c name]; [contradiction|]. intros _ H.
  cbn [all_chars] in H. apply andb_true_iff in H as [Hc _].
  change (String c name +:+ ext) with (String c (name +:+ ext)).
  unfold startswith. cbn [strip_prefix].
  destruct (Ascii.eqb_spec "/" c) as [<-|]; [discriminate | reflexivity].
Qed.

(** X16: the document of a project lies directly in the storage directory:
    its path is the directory, a separator if needed, a non-empty name made
    of ASCII letters, digits, underscores and hyphens only, and the
    extension, for an ASCII project identifier.  (Of an identifier with
    other characters the name keeps those the Unicode database calls
    alphanumeric.) *)
Theorem project_file_in_directory project_id :
  ascii_only project_id = true ->
  exists name,
    get_project_file_path rt project_id
    = directory_prefix (ACTION_ITEM_DIR rt) +:+ name +:+ ".json"
    /\ name <> EmptyString
    /\ all_chars safe_char name = true.
Proof.
  intros Hascii. unfold get_project_file_path.
  pose proof (safe_ascii_characters _ (chars_ascii project_id Hascii)) as Hkept.
  fold (safe_characters rt project_id) in Hkept.
  set (name := if String.eqb (safe_characters rt project_id) EmptyString
               then "default_project" else safe_characters rt project_id).
  assert (Hne : name <> EmptyString).
  { subst name.
    destruct (String.eqb_spec (safe_characters rt project_id) EmptyString);
      [discriminate | assumption]. }
  assert (Hsafe : all_chars safe_char name = true).
  { subst name.
    destruct (String.eqb (safe_characters rt project_id) EmptyString);
      [reflexivity | exact Hkept]. }
  exists name. repeat split; try assumption.
  unfold path_join, directory_prefix.
  rewrite (safe_name_not_absolute name ".json" Hne Hsafe).
  destruct (String.eqb (ACTION_ITEM_DIR rt) EmptyString
            || endswith_char "/" (ACTION_ITEM_DIR rt)); [reflexivity|].
  now rewrite append_assoc.
Qed.

(** X17: the loader lets no decode error and no I/O error escape. *)
Theorem load_contains_decode_and_io_errors fs project_id :
  load_action_items rt fs project_id <> Raise JSONDecodeError
  /\ load_action_items rt fs project_id <> Raise IOError.
Proof.
  unfold load_action_items.
  destruct (files fs !! _) as [bytes|]; [|split; discriminate].
  destruct (json_load rt fs _ bytes) as [[]|[]]; split; discriminate.
Qed.

(** X18: saving one project leaves what loading another project yields as
    it was, when the two have different documents. *)
Theorem save_leaves_other_projects fs p q items :
  String.eqb (get_project_file_path rt p) (get_project_file_path rt q) = false ->
  load_action_items rt (fst (save_action_items rt fs p items)) q
  = load_action_items rt fs q.
Proof.
  intros Hne. apply String.eqb_neq in Hne.
  unfold save_action_items.
  destruct (makedirs_fails fs); [reflexivity|].
  destruct (bool_decide _); [reflexivity|].
  unfold load_action_items, json_load. cbn [fst files unreadable].
  now rewrite lookup_insert_ne.
Qed.

(** X19: a save replaces the whole document: two saves of a project leave
    the storage directory as the second alone would. *)
Theorem save_overwrites fs p items1 items2 :
  save_action_items rt (fst (save_action_items rt fs p items1)) p items2
  = save_action_items rt fs p items2.
Proof.
  unfold save_action_items.
  destruct (makedirs_fails fs) eqn:Hm.
  - cbn [fst]. now rewrite Hm.
  - destruct (bool_decide (_ ∈ unwritable fs)) eqn:Hw.
    + cbn [fst]. now rewrite Hm, Hw.
    + cbn [fst makedirs_fails unwritable files unreadable]. rewrite Hw.
      now rewrite insert_insert_eq.
Qed.

(** X20: project identifiers of which the path keeps the same characters
    share one document: what is saved under one is loaded under the other
    (any items of Python, a save that succeeded, a document that can be
    opened for reading, the json library). *)
Theorem projects_with_one_safe_name_share_a_document fs fs' p q items :
  json_library rt ->
  python_value (VList items) = true ->
  safe_characters rt p = safe_characters rt q ->
  save_action_items rt fs p items = (fs', true) ->
  bool_decide (get_project_file_path rt q ∈ unreadable fs) = false ->
  load_action_items rt fs' q = Ok items.
Proof.
  intros Hlib Hpy Hpq Hsave Hread.
  apply (load_after_save rt fs fs' p q items); try assumption.
  - unfold get_project_file_path. now rewrite Hpq.
  - now apply json_reads_back.
Qed.

End StoreMore.

(** ** The extra theorems on example data *)

(** The task of the demonstration item is not named by the mapping. *)
Lemma update_leaves_unnamed_fields_witness :
  dict_get "task"
    (fst (update_action_item Demo.runtime Examples.docs_item
            Examples.done_and_owner Demo.start))
  = Some (VStr "Update docs").
Proof.
  apply (update_leaves_unnamed_fields Demo.runtime Examples.docs_item
           Examples.done_and_owner Demo.start "task"); reflexivity.
Defined.

Lemma valid_update_takes_effect_witness :
  exists w',
    dict_get "status"
      (fst (update_action_item Demo.runtime Examples.docs_item
              Examples.progress_and_owner Demo.start)) = Some w'
    /\ (w' = VStr "Completed" \/ py_eq w' (VStr "Completed") = true).
Proof.
  apply (valid_update_takes_effect Demo.runtime Examples.docs_item
           Examples.progress_and_owner Demo.start "status" (VStr "Completed"));
    reflexivity.
Defined.

Lemma valid_update_idempotent_witness :
  let item1 :=
    fst (update_action_item Demo.runtime Examples.docs_item
           Examples.progress_and_owner Demo.start) in
  fst (update_action_item Demo.runtime item1 Examples.progress_and_owner
         {| clock_reads := 1; uuid_draws := 0 |})
  = item1.
Proof.
  apply (valid_update_idempotent Demo.runtime Examples.docs_item
           Examples.progress_and_owner); reflexivity.
Defined.

Lemma update_keeps_status_valid_witness :
  exists s',
    dict_get "status"
      (fst (update_action_item Demo.runtime Examples.docs_item
              Examples.done_and_owner Demo.start)) = Some s'
    /\ is_valid_status s' = true.
Proof.
  apply (update_keeps_status_valid Demo.runtime Examples.docs_item
           Examples.done_and_owner Demo.start (VStr "In Progress"));
    reflexivity.
Defined.

Lemma merge_returns_stored_then_created_witness :
  exists out e',
    process_parsed_items Demo.runtime "TestProc"
      Examples.update_and_new_task Examples.two_records Demo.start
    = Ok (out, e')
    /\ exists updated created,
         out = updated ++ created
         /\ Forall2 preserved Examples.two_records updated.
Proof.
  eexists _, _. split; [vm_compute; reflexivity|].
  eapply (merge_returns_stored_then_created Demo.runtime "TestProc"
            Examples.update_and_new_task Examples.two_records Demo.start).
  vm_compute. reflexivity.
Defined.

Lemma merge_creates_wellformed_items_witness :
  exists out e',
    process_parsed_items Demo.runtime "TestProc"
      Examples.update_and_new_task Examples.two_records Demo.start
    = Ok (out, e')
    /\ exists created,
         drop (length Examples.two_records) out = map VDict created
         /\ Forall (created_shape Demo.runtime "TestProc") created.
Proof.
  eexists _, _. split; [vm_compute; reflexivity|].
  eapply (merge_creates_wellformed_items Demo.runtime "TestProc"
            Examples.update_and_new_task Examples.two_records Demo.start).
  vm_compute. reflexivity.
Defined.

Lemma merge_leaves_untargeted_records_witness :
  exists out e',
    process_parsed_items Demo.runtime "TestProc"
      Examples.update_and_new_task Examples.two_records Demo.start
    = Ok (out, e')
    /\ out !! 0 = Some (VDict Examples.budget_item).
Proof.
  eexists _, _. split; [vm_compute; reflexivity|].
  eapply (merge_leaves_untargeted_records Demo.runtime "TestProc"
            Examples.update_and_new_task Examples.two_records Demo.start
            _ _ 0 (VDict Examples.budget_item) (VStr "abc-789")).
  - vm_compute. reflexivity.
  - reflexivity.
  - reflexivity.
  - reflexivity.
Defined.


Lemma merge_creates_nothing_without_task_tab_witness :
  exists out e',
    process_parsed_items Demo.runtime "TestProc"
      [VDict Examples.completed_candidate] Examples.two_records Demo.start
    = Ok (out, e')
    /\ length out = length Examples.two_records.
Proof.
  eexists _, _. split; [vm_compute; reflexivity|].
  eapply (merge_creates_nothing_without_task_tab Demo.runtime "TestProc"
            [VDict Examples.completed_candidate] Examples.two_records
            Demo.start).
  - reflexivity.
  - vm_compute. reflexivity.
Defined.

Lemma merge_raises_without_id_witness :
  process_parsed_items Demo.runtime "TestProc" Examples.update_and_new_task
    ([VDict Examples.docs_item] ++ VDict [("task", VStr "Lost")] :: [])
    Demo.start
  = Raise KeyError.
Proof.
  apply (merge_raises_without_id Demo.runtime "TestProc"
           Examples.update_and_new_task
           [VDict Examples.docs_item] [("task", VStr "Lost")] [] Demo.start);
    reflexivity.
Defined.

Lemma create_from_item_witness :
  exists item,
    create_from Demo.runtime "TestProc" Examples.tabbed_candidate
      {| existing_items := []; newly_created_items := []; rng := Demo.start |}
    = Ok {| existing_items := [];
            newly_created_items := [] ++ [item];
            rng := tick_uuid (tick_clock Demo.start) |}
    /\ dict_get "id" item
       = Some (VStr (uuid4 Demo.runtime (uuid_draws Demo.start)))
    /\ dict_get "task" item = Some (VStr "Finalize the report")
    /\ dict_get "status" item
       = Some (match dict_get "status" Examples.tabbed_candidate with
               | Some v => if is_valid_status v then v else VStr "Open"
               | None => VStr "Open"
               end)
    /\ dict_get "source_meeting" item = Some (VStr "LLM Extraction")
    /\ dict_get "update_history" item = Some (VList []).
Proof.
  apply (create_from_item Demo.runtime "TestProc" Examples.tabbed_candidate
           {| existing_items := []; newly_created_items := [];
              rng := Demo.start |} (VStr "Finalize the report"));
    reflexivity.
Defined.

(** An identifier that tries to leave the directory. *)
Lemma project_file_in_directory_witness :
  exists name,
    get_project_file_path Demo.runtime "../etc/passwd"
    = directory_prefix (ACTION_ITEM_DIR Demo.runtime) +:+ name +:+ ".json"
    /\ name <> EmptyString
    /\ all_chars safe_char name = true.
Proof.
  apply (project_file_in_directory Demo.runtime "../etc/passwd").
  reflexivity.
Defined.

Lemma save_leaves_other_projects_witness :
  load_action_items Demo.runtime
    (fst (save_action_items Demo.runtime Examples.testproc_disk "Other"
            [VDict Examples.budget_item]))
    "TestProc"
  = load_action_items Demo.runtime Examples.testproc_disk "TestProc".
Proof.
  apply (save_leaves_other_projects Demo.runtime Examples.testproc_disk
           "Other" "TestProc").
  vm_compute. reflexivity.
Defined.

Lemma projects_with_one_safe_name_share_a_document_witness :
  load_action_items Demo.runtime
    (fst (save_action_items Demo.runtime Examples.empty_disk "Test Proc!"
            [VDict Examples.docs_item]))
    "TestProc"
  = Ok [VDict Examples.docs_item].
Proof.
  apply (projects_with_one_safe_name_share_a_document Demo.runtime
           Examples.empty_disk _ "Test Proc!" "TestProc"
           [VDict Examples.docs_item]).
  - split; reflexivity.
  - reflexivity.
  - reflexivity.
  - reflexivity.
  - vm_compute. reflexivity.
Defined.

(** Outside ASCII the path keeps what the Unicode database calls a letter or
    a number and drops the rest: the documents of two identifiers that
    differ in a letter are two, those of two that differ in a sign are
    one. *)
Lemma path_of_identifier_outside_ascii :
  get_project_file_path Demo.runtime Examples.cafe
  = "/home/ubuntu/action_tracker_agent/project_data/" +:+ Examples.cafe
    +:+ ".json"
  /\ get_project_file_path Demo.runtime Examples.cafe
     <> get_project_file_path Demo.runtime "caf"
  /\ get_project_file_path Demo.runtime Examples.cafe_times
     = get_project_file_path Demo.runtime Examples.cafe.
Proof.
  split; [vm_compute; reflexivity|].
  split; [vm_compute; discriminate | vm_compute; reflexivity].
Qed.

(** ** Malformed candidates and the content of the history entry *)

Section Edges.
Variable rt : runtime.

Lemma process_items_app project_id m cs1 : forall cs2 st,
  process_items rt project_id m (cs1 ++ cs2) st
  = bind (process_items rt project_id m cs1 st)
         (process_items rt project_id m cs2).
Proof.
  induction cs1 as [|c cs1 IH]; intros cs2 st; [reflexivity|].
  cbn [app process_items].
  destruct (process_item rt project_id m st c) as [st1|]; [|reflexivity].
  cbn [bind]. apply IH.
Qed.

(** The merge raises what the first candidate past well-behaved ones
    raises. *)
Lemma merge_raises_at project_id pre c post existing e x :
  forallb stored existing = true ->
  forallb (update_or_skip existing) pre = true ->
  (forall m st, process_item rt project_id m st c = Raise x) ->
  process_parsed_items rt project_id (pre ++ c :: post) existing e = Raise x.
Proof.
  intros Hst Hpre Hc. unfold process_parsed_items.
  destruct (build_map_existing existing Hst) as [m (-> & Hs & Hm)].
  cbn [bind]. rewrite process_items_app.
  destruct (process_items_update_or_skip rt project_id m existing pre
              {| existing_items := existing; newly_created_items := [];
                 rng := e |} Hs Hm (stored_preserved existing Hst) Hpre)
    as [st1 (-> & _)].
  cbn [bind process_items]. now rewrite Hc.
Qed.

(** X21: a candidate that is not a record makes the merge raise
    [AttributeError] (the candidates before it being updates or passed
    over): the elements of the parsed list are not checked to be records. *)
Theorem merge_raises_on_non_record project_id pre c post existing e :
  forallb stored existing = true ->
  forallb (update_or_skip existing) pre = true ->
  is_record c = false ->
  process_parsed_items rt project_id (pre ++ c :: post) existing e
  = Raise AttributeError.
Proof.
  intros Hst Hpre Hc. apply merge_raises_at; try assumption.
  intros m st. destruct c; try reflexivity. discriminate.
Qed.

(** X22: a candidate whose id is truthy and not hashable (a non-empty list or
    object) makes the merge raise [TypeError] in the id lookup. *)
Theorem merge_raises_on_unhashable_candidate_id
    project_id pre c post existing e :
  forallb stored existing = true ->
  forallb (update_or_skip existing) pre = true ->
  truthy (candidate_id c) = true -> hashable (candidate_id c) = false ->
  process_parsed_items rt project_id (pre ++ VDict c :: post) existing e
  = Raise TypeError.
Proof.
  intros Hst Hpre Ht Hh. apply merge_raises_at; try assumption.
  intros m st. unfold process_item, lookup_existing.
  unfold candidate_id in Ht, Hh. now rewrite Ht, Hh.
Qed.

(** X23: when some supplied value differs, the history grows by exactly one
    entry, stamped with the time of the call, whose text joins with "; " the
    descriptions of the differing updates in the order of the mapping (the
    mapping not naming [update_history]). *)
Theorem update_history_entry_lists_changes item updates e :
  unique_keys updates = true ->
  dict_mem "update_history" updates = false ->
  existsb (differs item) updates = true ->
  history (fst (update_action_item rt item updates e))
  = history item
    ++ [history_entry (now rt e)
          (join "; " (omap (description rt item) updates))].
Proof.
  intros Hu Hh Hd. unfold update_action_item.
  pose proof (apply_fields_log rt updates item item [] Hu (fun _ _ => eq_refl))
    as Hlog.
  pose proof (apply_fields_log_nonempty rt updates item [] Hd) as Hne.
  pose proof (apply_fields_get_other rt updates item [] "update_history" Hh)
    as Hget.
  fold (apply_fields rt item updates) in Hlog, Hne, Hget.
  destruct (apply_fields rt item updates) as [assigned log]. simpl in *.
  subst log. rewrite check_status_history.
  destruct (record_history_stamps (now rt e) _ assigned Hne) as [_ ->].
  unfold history. now rewrite Hget.
Qed.

End Edges.

Lemma merge_raises_on_non_record_witness :
  process_parsed_items Demo.runtime "TestProc"
    ([VDict Examples.completed_candidate] ++ VStr "a" :: [])
    Examples.two_records Demo.start
  = Raise AttributeError.
Proof.
  apply (merge_raises_on_non_record Demo.runtime "TestProc"
           [VDict Examples.completed_candidate] (VStr "a") []
           Examples.two_records Demo.start); reflexivity.
Defined.

Lemma merge_raises_on_unhashable_candidate_id_witness :
  process_parsed_items Demo.runtime "TestProc"
    ([] ++ VDict [("id", VList [VStr "xyz-123"])] :: [])
    Examples.two_records Demo.start
  = Raise TypeError.
Proof.
  apply (merge_raises_on_unhashable_candidate_id Demo.runtime "TestProc"
           [] [("id", VList [VStr "xyz-123"])] []
           Examples.two_records Demo.start); reflexivity.
Defined.

Lemma update_history_entry_lists_changes_witness :
  history (fst (update_action_item Demo.runtime Examples.docs_item
                  Examples.progress_and_owner Demo.start))
  = history Examples.docs_item
    ++ [history_entry (now Demo.runtime Demo.start)
          (join "; " (omap (description Demo.runtime Examples.docs_item)
                        Examples.progress_and_owner))].
Proof.
  apply (update_history_entry_lists_changes Demo.runtime Examples.docs_item
           Examples.progress_and_owner Demo.start); reflexivity.
Defined.
